(** * The query layer of [app.js]: three Express handlers over SQLite

    [app.js] is an Express application whose three data endpoints each hand
    one SQL statement to [db.all] of node-sqlite3 and send the rows back as
    JSON:

    - [GET /api/gps/trucks]          (lines 79-92),
    - [GET /api/opportunities]       (lines 95-115),
    - [GET /api/analytics/revenue]   (lines 118-134).

    Of the configuration the file computes from the environment when it
    starts, the [origin] option given to [cors] (line 16) is modelled,
    in [Config].

    The JavaScript part of a handler only reads [req.query], applies the
    destructuring defaults and builds the array of bound parameters; the
    behaviour is in the SQL text.  The development therefore has two layers:
    the handlers, translated from the JavaScript, and the three statements,
    translated clause by clause ([FROM], [WHERE], [GROUP BY], [ORDER BY],
    [LIMIT], result columns) over a model of the SQLite values they
    manipulate.

    What Express, node-sqlite3, SQLite and the C library contribute is
    modelled as follows.
    - A value of the query string is a string, and node-sqlite3 binds a
      string as TEXT, a missing value as NULL and the number [100] as an
      INTEGER.
    - Values are dynamically typed (NULL, INTEGER, REAL, TEXT, BLOB) and are
      compared as SQLite compares operands that no column affinity
      converts: a number is less than any text.
    - REAL is IEEE binary64: Rocq's primitive floats.  A result that is NaN
      is NULL.
    - [cos], [sin] and [acos] come from the C library.  They are a parameter
      ([libm]) of everything that evaluates the distance expression; the
      theorems hold for every C library, the examples use a table of the
      values of one.
    - The clock is a parameter [now] (Unix time, seconds) of every query.
    - A time value is read when it is written [YYYY-MM-DD] with an optional
      [HH:MM], [HH:MM:SS] or [HH:MM:SS.FFF] and time zone, as a time of day
      alone, as [now], or as a Julian day number; a text or a blob is read
      up to its first NUL character.  The moments run from Julian day 0
      to the end of the year 9999. *)

From Stdlib Require Import ZArith List String Ascii Bool Lia.
From Stdlib Require Import Floats Sorting.Sorted.
From Stdlib Require Sorting.Permutation Structures.OrderedTypeEx.
Import ListNotations.

Local Open Scope string_scope.
Local Open Scope Z_scope.

(* ================================================================== *)
(** * SQLite values *)
(* ================================================================== *)

(** The five storage classes.  A BLOB is kept as its bytes. *)
Inductive value : Type :=
| Null
| Integer (i : Z)
| Real (r : float)
| Text (s : string)
| Blob (b : string).

(** ** Comparison

    Operands of the comparisons in the three statements carry no column
    affinity that would convert them (the result alias [distance] and the
    function results are expressions; a bound parameter has none; the
    [TIMESTAMP] columns have NUMERIC affinity, which leaves a text that is
    not a number alone).  They are compared as they are: NULL first, then
    numbers, then text, then blobs; two numbers by value, two texts or
    blobs byte-wise ([memcmp], the BINARY collation). *)

Definition float_compare (x y : float) : comparison :=
  match PrimFloat.compare x y with
  | FEq => Eq
  | FLt => Lt
  | FGt => Gt
  | FNotComparable => Eq
  end.

(** An integer against a double, exactly (SQLite widens both). *)
Definition int_float_compare (i : Z) (r : float) : comparison :=
  match Prim2SF r with
  | S754_nan => Eq
  | S754_infinity s => if s then Gt else Lt
  | S754_zero _ => Z.compare i 0
  | S754_finite s m e =>
      let m' := if s then Z.neg m else Z.pos m in
      if 0 <=? e then Z.compare i (m' * 2 ^ e)
      else Z.compare (i * 2 ^ (- e)) m'
  end.

Definition value_compare (a b : value) : comparison :=
  match a, b with
  | Null, Null => Eq
  | Null, _ => Lt
  | _, Null => Gt
  | Integer i, Integer j => Z.compare i j
  | Integer i, Real r => int_float_compare i r
  | Real r, Integer i => CompOpp (int_float_compare i r)
  | Real r, Real q => float_compare r q
  | (Integer _ | Real _), _ => Lt
  | _, (Integer _ | Real _) => Gt
  | Text s, Text t => String.compare s t
  | Text _, Blob _ => Lt
  | Blob _, Text _ => Gt
  | Blob s, Blob t => String.compare s t
  end.

(** The order of [ORDER BY]: [value_ltb a b] when [a] sorts strictly
    before [b] in ascending order. *)
Definition value_ltb (a b : value) : bool :=
  match value_compare a b with Lt => true | _ => false end.

(** The operators [<] and [>] of a [WHERE] clause: NULL when an operand is
    NULL (three-valued logic), otherwise the comparison above. *)
Definition sql_lt (a b : value) : option bool :=
  match a, b with
  | Null, _ | _, Null => None
  | _, _ => Some (value_ltb a b)
  end.

Definition sql_gt (a b : value) : option bool := sql_lt b a.

(** [x AND y], and the test a [WHERE] clause applies to its result: the row
    is kept when the condition is true, dropped when it is false or NULL. *)
Definition sql_and (x y : option bool) : option bool :=
  match x, y with
  | Some false, _ | _, Some false => Some false
  | Some true, Some true => Some true
  | _, _ => None
  end.

Definition where_true (c : option bool) : bool :=
  match c with Some true => true | _ => false end.

(* ================================================================== *)
(** * [ORDER BY] and [LIMIT] *)
(* ================================================================== *)

Section OrderBy.
Context {A : Type}.
(** [before x y]: row [x] must come strictly before row [y]. *)
Variable before : A -> A -> bool.

(** The sorter keeps rows with equal keys in the order in which the scan
    produced them: a row is placed after the rows that must precede it and
    in front of everything else. *)
Fixpoint insert_row (x : A) (l : list A) : list A :=
  match l with
  | [] => [x]
  | y :: l' => if before y x then y :: insert_row x l' else x :: y :: l'
  end.

Definition order_by (l : list A) : list A :=
  fold_right insert_row [] l.
End OrderBy.

(** [LIMIT n] keeps the first [n] rows of the ordered result. *)
Definition limit {A : Type} (n : nat) (l : list A) : list A := firstn n l.

(* ================================================================== *)
(** * Numbers written as text *)
(* ================================================================== *)

(** Query-string values reach SQLite as TEXT.  A math function reads its
    argument as a number when the whole text is one: optional blanks, an
    optional sign, digits with an optional fraction, an optional exponent
    with at least one digit, optional blanks.  Anything else is not a
    number and the function returns NULL. *)

Definition is_space (c : ascii) : bool :=
  let n := Z.of_N (N_of_ascii c) in (n =? 32) || ((9 <=? n) && (n <=? 13)).

Definition digit_of (c : ascii) : option Z :=
  let n := Z.of_N (N_of_ascii c) in
  if (48 <=? n) && (n <=? 57) then Some (n - 48) else None.

Fixpoint skip_spaces (s : string) : string :=
  match s with
  | String c s' => if is_space c then skip_spaces s' else s
  | EmptyString => s
  end.

(** A run of digits: its value (continuing [acc]), how many there were
    (continuing [n]) and the rest of the text. *)
Fixpoint read_digits (acc n : Z) (s : string) : Z * Z * string :=
  match s with
  | String c s' =>
      match digit_of c with
      | Some d => read_digits (10 * acc + d) (n + 1) s'
      | None => (acc, n, s)
      end
  | EmptyString => (acc, n, s)
  end.

Definition read_sign (s : string) : bool * string :=
  match s with
  | String "-" s' => (true, s')
  | String "+" s' => (false, s')
  | _ => (false, s)
  end.

(** The nearest double to an integer, and to a quotient of two positive
    integers (the quotient is first taken with more than 64 bits and a
    sticky last bit, so that the final rounding is the only one). *)
Definition float_of_Z (z : Z) : float :=
  SF2Prim (binary_normalize prec emax z 0 false).

Definition float_of_ratio (n d : Z) : float :=
  if n =? 0 then 0%float
  else
    let sh := Z.max 0 (64 + Z.log2 d - Z.log2 n) in
    let q := (n * 2 ^ sh) / d in
    let sticky := if (n * 2 ^ sh) mod d =? 0 then 0 else 1 in
    SF2Prim (binary_normalize prec emax (2 * q + sticky) (- (sh + 1)) false).

(** [m * 10^e], [m >= 0], as a double. *)
Definition float_of_decimal (m e : Z) : float :=
  if 0 <=? e then float_of_ratio (m * 10 ^ e) 1
  else float_of_ratio m (10 ^ (- e)).

(** The fraction and the exponent that may follow the integer part [ip]:
    the digits read so far as one integer, the number of fraction digits,
    the decimal exponent, whether the exponent (if any) has a digit,
    whether the text has a fraction or an exponent, and the rest. *)
Definition read_fraction (ip : Z) (s : string) : Z * Z * bool * string :=
  match s with
  | String "." s' =>
      let '(m, nf, rest) := read_digits ip 0 s' in (m, nf, true, rest)
  | _ => (ip, 0, false, s)
  end.

Definition read_exponent (s : string) : Z * bool * bool * string :=
  match s with
  | String c s' =>
      if (Ascii.eqb c "e" || Ascii.eqb c "E")%bool then
        let '(eneg, s1) := read_sign s' in
        let '(ev, ne, rest) := read_digits 0 0 s1 in
        ((if eneg then - ev else ev), 0 <? ne, true, rest)
      else (0, true, false, s)
  | EmptyString => (0, true, false, s)
  end.

(** The text as a number: INTEGER when it is written as an integer that
    fits 64 bits, REAL otherwise; [None] when it is not a number. *)
Definition numeric_of_text (s : string) : option value :=
  let '(neg, s1) := read_sign (skip_spaces s) in
  let '(ip, ni, s2) := read_digits 0 0 s1 in
  let '(m, nf, dot, s3) := read_fraction ip s2 in
  let '(ex, evalid, hasexp, s4) := read_exponent s3 in
  match skip_spaces s4 with
  | EmptyString =>
      if (0 <? ni + nf) && evalid then
        let i := if neg then - m else m in
        if negb dot && negb hasexp && (- 2 ^ 63 <=? i) && (i <? 2 ^ 63)
        then Some (Integer i)
        else
          let r := float_of_decimal m (ex - nf) in
          Some (Real (if neg then (- r)%float else r))
      else None
  | _ => None
  end.

(** The argument of a math function as a double ([sqlite3_value_double]
    after [sqlite3_value_numeric_type]); [None] for NULL, a BLOB, and text
    that is not a number. *)
Definition numeric_double (v : value) : option float :=
  match v with
  | Integer i => Some (float_of_Z i)
  | Real r => Some r
  | Text s =>
      match numeric_of_text s with
      | Some (Integer i) => Some (float_of_Z i)
      | Some (Real r) => Some r
      | _ => None
      end
  | Null | Blob _ => None
  end.

(* ================================================================== *)
(** * The distance expression *)
(* ================================================================== *)

(** What SQLite takes from the C library. *)
Record libm : Type := {
  cos : float -> float;
  sin : float -> float;
  acos : float -> float
}.

(** A double as an SQL result: NaN becomes NULL. *)
Definition real_result (x : float) : value :=
  if is_nan x then Null else Real x.

(** A one-argument math function: NULL unless the argument is a number. *)
Definition math1 (f : float -> float) (v : value) : value :=
  match numeric_double v with
  | Some x => real_result (f x)
  | None => Null
  end.

(** [radians(X)] is [X * (M_PI / 180.0)]. *)
Definition M_PI : float := 0x1.921fb54442d18p+1%float.

Definition radians (v : value) : value :=
  math1 (fun x => x * (M_PI / 180))%float v.

(** [*], [+] and [-] where they occur in the expression: both operands are
    results of math functions (NULL or REAL) or the integer literal 6371,
    which is converted to a double because the other operand is REAL.  An
    operand that is NULL makes the result NULL, and so does NaN. *)
Definition real_arith (op : float -> float -> float) (a b : value) : value :=
  match numeric_double a, numeric_double b with
  | Some x, Some y => real_result (op x y)
  | _, _ => Null
  end.

Definition sql_mul := real_arith PrimFloat.mul.
Definition sql_add := real_arith PrimFloat.add.
Definition sql_sub := real_arith PrimFloat.sub.

(** The argument of [acos]:
    [[
      cos(radians(?)) * cos(radians(origin_lat)) *
      cos(radians(origin_lng) - radians(?)) +
      sin(radians(?)) * sin(radians(origin_lat))
    ]]
    [p1], [p2] and [p3] are the first three bound parameters. *)
Definition cosine_of_angle (M : libm) (p1 p2 p3 origin_lat origin_lng : value)
  : value :=
  sql_add
    (sql_mul
       (sql_mul (math1 (cos M) (radians p1))
                (math1 (cos M) (radians origin_lat)))
       (math1 (cos M) (sql_sub (radians origin_lng) (radians p2))))
    (sql_mul (math1 (sin M) (radians p3))
             (math1 (sin M) (radians origin_lat))).


(** [(6371 * acos( ... )) AS distance]. *)
Definition distance (M : libm) (p1 p2 p3 origin_lat origin_lng : value)
  : value :=
  sql_mul (Integer 6371)
    (math1 (acos M) (cosine_of_angle M p1 p2 p3 origin_lat origin_lng)).

(* ================================================================== *)
(** * Dates and times *)
(* ================================================================== *)

(** SQLite keeps a moment as a Julian day; the model keeps it as Unix time
    in seconds, which is what the clock gives and what ['%s'] prints.  The
    two calendar conversions are SQLite's ([computeJD], [computeYMD]), with
    the integer divisions of C ([Z.quot]). *)

Record datetime : Type := {
  dt_year : Z; dt_month : Z; dt_day : Z;
  dt_hour : Z; dt_minute : Z; dt_second : Z
}.

(** The number of the day [Y-M-D]; a day past the end of its month counts
    on into the next one. *)
Definition day_number (Y M D : Z) : Z :=
  let y := if M <=? 2 then Y - 1 else Y in
  let m := if M <=? 2 then M + 12 else M in
  let A := Z.quot y 100 in
  let B := 2 - A + Z.quot A 4 in
  let X1 := Z.quot (36525 * (y + 4716)) 100 in
  let X2 := Z.quot (306001 * (m + 1)) 10000 in
  X1 + X2 + D + B - 1524.

Definition civil_of_day_number (z : Z) : Z * Z * Z :=
  let A0 := Z.quot (100 * z - 186721625) 3652425 in
  let A := z + 1 + A0 - Z.quot A0 4 in
  let B := A + 1524 in
  let C := Z.quot (100 * B - 12210) 36525 in
  let D := Z.quot (36525 * Z.land C 32767) 100 in
  let E := Z.quot (10000 * (B - D)) 306001 in
  let X1 := Z.quot (306001 * E) 10000 in
  let M := if E <? 14 then E - 1 else E - 13 in
  let Y := if 2 <? M then C - 4716 else C - 4715 in
  (Y, M, B - D - X1).

(** Day number of 1970-01-01. *)
Definition unix_epoch_day : Z := 2440588.

Definition unix_of_datetime (t : datetime) : Z :=
  (day_number (dt_year t) (dt_month t) (dt_day t) - unix_epoch_day) * 86400
  + dt_hour t * 3600 + dt_minute t * 60 + dt_second t.

Definition datetime_of_unix (u : Z) : datetime :=
  let '(Y, M, D) := civil_of_day_number (u / 86400 + unix_epoch_day) in
  let s := u mod 86400 in
  {| dt_year := Y; dt_month := M; dt_day := D;
     dt_hour := s / 3600; dt_minute := (s mod 3600) / 60;
     dt_second := s mod 60 |}.

(** ** Printing *)

Definition digit_char (d : Z) : ascii := ascii_of_N (Z.to_N (48 + d mod 10)).

(** The last [width] decimal digits of [n], zero-padded. *)
Fixpoint pad (width : nat) (n : Z) (tail : string) : string :=
  match width with
  | O => tail
  | S w => pad w (n / 10) (String (digit_char n) tail)
  end.

(** A non-negative integer in decimal. *)
Fixpoint decimal (fuel : nat) (n : Z) (tail : string) : string :=
  match fuel with
  | O => tail
  | S f =>
      let tail' := String (digit_char n) tail in
      if n <? 10 then tail' else decimal f (n / 10) tail'
  end.

Definition string_of_Z (n : Z) : string :=
  if n <? 0 then String "-" (decimal (Z.to_nat (Z.log2 (- n)) + 1) (- n) "")
  else decimal (Z.to_nat (Z.log2 n) + 1) n "".

(** Years 0000 to 9999 are printed; a moment outside gives NULL. *)
Definition printable (t : datetime) : bool :=
  (0 <=? dt_year t) && (dt_year t <=? 9999).

(** ['%Y-%m-%d %H:%M:%S'], the format of [datetime()]. *)
Definition format_datetime (t : datetime) : value :=
  if printable t then
    Text (pad 4 (dt_year t) (String "-" (pad 2 (dt_month t) (String "-"
         (pad 2 (dt_day t) (String " " (pad 2 (dt_hour t) (String ":"
         (pad 2 (dt_minute t) (String ":" (pad 2 (dt_second t) "")))))))))))
  else Null.

(** ** Reading a time value *)

(** SQLite reads the text of a time value and of a modifier as a C string
    ([sqlite3_value_text], then [strlen] and the like): what follows the
    first NUL character is not seen. *)
Fixpoint c_string (s : string) : string :=
  match s with
  | String c s' =>
      if Ascii.eqb c Ascii.zero then EmptyString else String c (c_string s')
  | EmptyString => EmptyString
  end.

Definition to_lower (c : ascii) : ascii :=
  let n := N_of_ascii c in
  if ((65 <=? n) && (n <=? 90))%N then ascii_of_N (n + 32) else c.

Fixpoint lower_case (s : string) : string :=
  match s with
  | String c s' => String (to_lower c) (lower_case s')
  | EmptyString => EmptyString
  end.

(** The moments SQLite can hold: Julian day 0 up to the last millisecond
    of the year 9999. *)
Definition julian_epoch_unix : Z := -210866760000.
Definition last_moment_unix : Z := 253402300799.

Definition valid_moment (u : Z) : bool :=
  (julian_epoch_unix <=? u) && (u <=? last_moment_unix).

(** Exactly [n] digits. *)
Fixpoint read_fixed (n : nat) (acc : Z) (s : string) : option (Z * string) :=
  match n with
  | O => Some (acc, s)
  | S n' =>
      match s with
      | String c s' =>
          match digit_of c with
          | Some d => read_fixed n' (10 * acc + d) s'
          | None => None
          end
      | EmptyString => None
      end
  end.

(** [n] digits with a value in [lo..hi]. *)
Definition read_field (n : nat) (lo hi : Z) (s : string)
  : option (Z * string) :=
  match read_fixed n 0 s with
  | Some (v, rest) => if (lo <=? v) && (v <=? hi) then Some (v, rest) else None
  | None => None
  end.

Definition expect (c : ascii) (s : string) : option string :=
  match s with
  | String c' s' => if Ascii.eqb c c' then Some s' else None
  | EmptyString => None
  end.

(** A time zone, in minutes east of UTC: nothing, [Z], or [+HH:MM] /
    [-HH:MM]; blanks before and after; nothing else may follow. *)
Definition parse_timezone (s : string) : option Z :=
  let end_of s' := match skip_spaces s' with EmptyString => true | _ => false end in
  match skip_spaces s with
  | EmptyString => Some 0
  | String c s1 =>
      if (Ascii.eqb c "Z" || Ascii.eqb c "z")%bool then
        if end_of s1 then Some 0 else None
      else if (Ascii.eqb c "+" || Ascii.eqb c "-")%bool then
        match read_field 2 0 14 s1 with
        | Some (h, s2) =>
            match expect ":" s2 with
            | Some s3 =>
                match read_field 2 0 59 s3 with
                | Some (m, s4) =>
                    if end_of s4 then
                      Some (if Ascii.eqb c "-" then - (h * 60 + m)
                            else h * 60 + m)
                    else None
                | None => None
                end
            | None => None
            end
        | None => None
        end
      else None
  end.

(** The fraction of a second, [.ddd...]: whether it rounds the
    milliseconds up to the next whole second. *)
Definition read_second_fraction (s : string) : bool * string :=
  match s with
  | String "." (String c s' as s1) =>
      match digit_of c with
      | Some _ =>
          let '(f, k, rest) := read_digits 0 0 s1 in
          (10 ^ k * 1999 <=? f * 2000, rest)
      | None => (false, s)
      end
  | _ => (false, s)
  end.

(** [HH:MM], [HH:MM:SS] or [HH:MM:SS.FFF], then the time zone: hour,
    minute, second (with the carry of the fraction) and zone. *)
Definition parse_time (s : string) : option (Z * Z * Z * Z) :=
  match read_field 2 0 24 s with
  | Some (h, s1) =>
      match expect ":" s1 with
      | Some s2 =>
          match read_field 2 0 59 s2 with
          | Some (m, s3) =>
              match expect ":" s3 with
              | Some s4 =>
                  match read_field 2 0 59 s4 with
                  | Some (sec, s5) =>
                      let '(carry, s6) := read_second_fraction s5 in
                      match parse_timezone s6 with
                      | Some tz =>
                          Some (h, m, (if carry then sec + 1 else sec), tz)
                      | None => None
                      end
                  | None => None
                  end
              | None =>
                  match parse_timezone s3 with
                  | Some tz => Some (h, m, 0, tz)
                  | None => None
                  end
              end
          | None => None
          end
      | None => None
      end
  | None => None
  end.

Fixpoint skip_date_separator (s : string) : string :=
  match s with
  | String c s' =>
      if (is_space c || Ascii.eqb c "T")%bool then skip_date_separator s'
      else s
  | EmptyString => s
  end.

(** [YYYY-MM-DD], alone or followed by a time of day: the fields as
    written and the time zone.  A minus sign in front makes the year
    negative. *)
Definition parse_date (text : string) : option (datetime * Z) :=
  let '(negative, s) := match text with
                        | String "-" s' => (true, s')
                        | _ => (false, text)
                        end in
  match read_field 4 0 9999 s with
  | Some (Y0, s1) =>
      let Y := if negative then - Y0 else Y0 in
      match expect "-" s1 with
      | Some s2 =>
          match read_field 2 1 12 s2 with
          | Some (M, s3) =>
              match expect "-" s3 with
              | Some s4 =>
                  match read_field 2 1 31 s4 with
                  | Some (D, s5) =>
                      let mk h m sec :=
                        {| dt_year := Y; dt_month := M; dt_day := D;
                           dt_hour := h; dt_minute := m; dt_second := sec |} in
                      match skip_date_separator s5 with
                      | EmptyString => Some (mk 0 0 0, 0)
                      | s6 =>
                          match parse_time s6 with
                          | Some (h, m, sec, tz) => Some (mk h m sec, tz)
                          | None => None
                          end
                      end
                  | None => None
                  end
              | None => None
              end
          | None => None
          end
      | None => None
      end
  | None => None
  end.

(** A time of day alone is a time on 2000-01-01. *)
Definition parse_time_only (s : string) : option (datetime * Z) :=
  match parse_time s with
  | Some (h, m, sec, tz) =>
      Some ({| dt_year := 2000; dt_month := 1; dt_day := 1;
               dt_hour := h; dt_minute := m; dt_second := sec |}, tz)
  | None => None
  end.

(** A double truncated to an integer. *)
Definition Z_of_float (x : float) : Z :=
  match Prim2SF x with
  | S754_finite s m e =>
      let v := if 0 <=? e then Z.pos m * 2 ^ e
               else Z.quot (Z.pos m) (2 ^ (- e)) in
      if s then - v else v
  | _ => 0
  end.

(** A number is a Julian day when it lies in [0, 5373484.5). *)
Definition moment_of_julian_day (r : float) : option Z :=
  if ((0 <=? r) && (r <? 5373484.5))%float then
    Some (Z_of_float (r * 86400000 + 0.5)%float / 1000 + julian_epoch_unix)
  else None.

(** What a date function knows of its argument: the moment (Unix seconds)
    and the year and month that ['%Y-%m'] prints.  A date written without
    a time zone keeps its fields as written; otherwise they are those of
    the moment. *)
Record time_value : Type := {
  tv_unix : Z; tv_year : Z; tv_month : Z
}.

Definition time_value_of_moment (u : Z) : time_value :=
  let t := datetime_of_unix u in
  {| tv_unix := u; tv_year := dt_year t; tv_month := dt_month t |}.

Definition time_value_of_fields (f : datetime * Z) : time_value :=
  let '(t, tz) := f in
  let u := unix_of_datetime t - tz * 60 in
  if tz =? 0 then
    {| tv_unix := u; tv_year := dt_year t; tv_month := dt_month t |}
  else time_value_of_moment u.

Definition read_time_text (now : Z) (text : string) : option time_value :=
  let s := c_string text in
  match parse_date s with
  | Some f => Some (time_value_of_fields f)
  | None =>
      match parse_time_only s with
      | Some f => Some (time_value_of_fields f)
      | None =>
          if String.eqb (lower_case s) "now" then
            Some (time_value_of_moment now)
          else
            match numeric_double (Text s) with
            | Some r =>
                match moment_of_julian_day r with
                | Some u => Some (time_value_of_moment u)
                | None => None
                end
            | None => None
            end
      end
  end.

(** The time value of an SQL value, when it has one in range.  A blob is
    read as the text of its bytes. *)
Definition read_time (now : Z) (v : value) : option time_value :=
  let checked o :=
    match o with
    | Some tv => if valid_moment (tv_unix tv) then Some tv else None
    | None => None
    end in
  match v with
  | Text s | Blob s => checked (read_time_text now s)
  | Integer _ | Real _ =>
      match numeric_double v with
      | Some r =>
          match moment_of_julian_day r with
          | Some u => checked (Some (time_value_of_moment u))
          | None => None
          end
      | None => None
      end
  | Null => None
  end.

(** The year as ['%Y'] prints it, with [%04d]: four digits, or a minus
    sign and at least three digits for a year before 0000. *)
Definition pad_year (y : Z) (tail : string) : string :=
  if 0 <=? y then pad 4 y tail
  else if -999 <=? y then String "-" (pad 3 (- y) tail)
  else string_of_Z y ++ tail.

(** [strftime('%Y-%m', X)] and [strftime('%s', X)]. *)
Definition strftime_Ym (now : Z) (v : value) : value :=
  match read_time now v with
  | Some tv =>
      Text (pad_year (tv_year tv) (String "-" (pad 2 (tv_month tv) "")))
  | None => Null
  end.

Definition strftime_s (now : Z) (v : value) : value :=
  match read_time now v with
  | Some tv => Text (string_of_Z (tv_unix tv))
  | None => Null
  end.

(** ** Modifiers [NNN unit] *)

Inductive time_unit : Type := Second | Minute | Hour | Day | Month | Year.

(** A final [s] is dropped once. *)
Fixpoint drop_plural (s : string) : string :=
  match s with
  | String c EmptyString => if Ascii.eqb c "s" then EmptyString else s
  | String c s' => String c (drop_plural s')
  | EmptyString => EmptyString
  end.

(** The unit named by what follows the number, a C string: between 3 and
    10 characters up to its end ([sqlite3Strlen30]), letter case
    ignored. *)
Definition unit_of_name (text : string) : option time_unit :=
  let name := c_string text in
  let n := Z.of_nat (String.length name) in
  if (n <? 3) || (10 <? n) then None
  else
    let w := drop_plural (lower_case name) in
    if String.eqb w "second" then Some Second
    else if String.eqb w "minute" then Some Minute
    else if String.eqb w "hour" then Some Hour
    else if String.eqb w "day" then Some Day
    else if String.eqb w "month" then Some Month
    else if String.eqb w "year" then Some Year
    else None.

(** The number is the text up to the first blank; the model reads the
    integers, which is all the two statements ever send (["-5"], ["-1"]). *)
Fixpoint split_at_space (s : string) : string * string :=
  match s with
  | String c s' =>
      if is_space c then (EmptyString, s)
      else let '(a, b) := split_at_space s' in (String c a, b)
  | EmptyString => (EmptyString, EmptyString)
  end.

Definition parse_modifier (s : string) : option (Z * time_unit) :=
  let '(num, rest) := split_at_space s in
  match numeric_of_text num with
  | Some (Integer n) =>
      match unit_of_name (skip_spaces rest) with
      | Some u => Some (n, u)
      | None => None
      end
  | _ => None
  end.

(** Seconds to days move the moment; months and years move the calendar
    fields and leave the day of the month to [day_number]. *)
Definition shift_months (n : Z) (u : Z) : Z :=
  let t := datetime_of_unix u in
  let M := dt_month t + n in
  let x := if 0 <? M then Z.quot (M - 1) 12 else Z.quot (M - 12) 12 in
  unix_of_datetime
    {| dt_year := dt_year t + x; dt_month := M - x * 12;
       dt_day := dt_day t; dt_hour := dt_hour t;
       dt_minute := dt_minute t; dt_second := dt_second t |}.

Definition shift_years (n : Z) (u : Z) : Z :=
  let t := datetime_of_unix u in
  unix_of_datetime
    {| dt_year := dt_year t + n; dt_month := dt_month t;
       dt_day := dt_day t; dt_hour := dt_hour t;
       dt_minute := dt_minute t; dt_second := dt_second t |}.

Definition apply_modifier (n : Z) (unit : time_unit) (u : Z) : Z :=
  match unit with
  | Second => u + n
  | Minute => u + n * 60
  | Hour => u + n * 3600
  | Day => u + n * 86400
  | Month => shift_months n u
  | Year => shift_years n u
  end.

(** [datetime('now')] and [datetime('now', modifier)]: the text of the
    moment, or NULL when the modifier is not understood. *)
Definition datetime_now (now : Z) : value :=
  format_datetime (datetime_of_unix now).

Definition datetime_now_modified (now : Z) (modifier : value) : value :=
  match modifier with
  | Text m =>
      match parse_modifier m with
      | Some (n, unit) =>
          format_datetime (datetime_of_unix (apply_modifier n unit now))
      | None => Null
      end
  | _ => Null
  end.

(* ================================================================== *)
(** * The store *)
(* ================================================================== *)

(** A table is the list of its rows in the order of a scan (ascending
    [id], the rowid).  SQLite does not enforce column types: every column
    but the key holds a [value]. *)

Module Truck.
(** [trucks (id, license_plate, current_lat, current_lng, last_updated)]. *)
Record row : Type := {
  id : Z;
  license_plate : value;
  current_lat : value;
  current_lng : value;
  last_updated : value
}.
End Truck.

Module Opportunity.
(** [opportunities (id, origin, destination, payload, revenue, expiry)],
    with the two columns [origin_lat] and [origin_lng] that the statement
    of [/api/opportunities] reads.  ([CREATE TABLE IF NOT EXISTS] leaves
    an existing table as it is; on a table without the two columns the
    statement is an error, the case [Unavailable] below.) *)
Record row : Type := {
  id : Z;
  origin : value;
  destination : value;
  payload : value;
  revenue : value;
  origin_lat : value;
  origin_lng : value;
  expiry : value
}.
End Opportunity.

Module Shipment.
(** [shipments]: the statement of [/api/analytics/revenue] reads the
    columns [timestamp] and [revenue].  [app.js] does not create the
    table; [revenue] is taken to be declared [REAL] as in [opportunities],
    so that a number is stored as a double. *)
Record row : Type := {
  timestamp : value;
  revenue : value
}.
End Shipment.

Record store : Type := {
  trucks : list Truck.row;
  opportunities : list Opportunity.row;
  shipments : list Shipment.row
}.

(** The database handle: [db.all] either reports an error (the file cannot
    be read, a table or a column is missing) or yields the rows of the
    statement. *)
Inductive db : Type :=
| Unavailable (message : string)
| Available (s : store).

Inductive db_result (row : Type) : Type :=
| Err (message : string)
| Rows (rows : list row).
Arguments Err {row} message.
Arguments Rows {row} rows.

Definition db_all {row : Type} (d : db) (statement : store -> list row)
  : db_result row :=
  match d with
  | Unavailable message => Err message
  | Available s => Rows (statement s)
  end.

(** What a handler sends: [res.status(500).json({ error: err.message })]
    or [res.json(rows)]. *)
Inductive response (row : Type) : Type :=
| Status500 (error : string)
| Json (rows : list row).
Arguments Status500 {row} error.
Arguments Json {row} rows.

Definition respond {row : Type} (r : db_result row) : response row :=
  match r with
  | Err message => Status500 message
  | Rows rows => Json rows
  end.

(* ================================================================== *)
(** * [req.query] and bound parameters *)
(* ================================================================== *)

(** The parsed query string.  Express gives every value as a string (a
    repeated or bracketed key gives an array or an object, which both the
    template literal and node-sqlite3 turn into its string). *)
Definition query : Type := list (string * string).

Inductive js_value : Type :=
| Undefined
| Str (s : string)
| Num (n : Z).

(** [req.query.key]. *)
Fixpoint get (q : query) (key : string) : js_value :=
  match q with
  | [] => Undefined
  | (k, v) :: q' => if String.eqb k key then Str v else get q' key
  end.

(** [const { key = d } = req.query]. *)
Definition with_default (v d : js_value) : js_value :=
  match v with
  | Undefined => d
  | _ => v
  end.

(** node-sqlite3 binds a string as TEXT and an integral number as INTEGER;
    an [undefined] element is left unbound, which SQLite reads as NULL. *)
Definition bind (v : js_value) : value :=
  match v with
  | Undefined => Null
  | Str s => Text s
  | Num n => Integer n
  end.

(** A coordinate of the query string that SQLite cannot read as a number:
    the key is missing, or its text is not a number. *)
Definition missing_or_non_numeric (v : js_value) : Prop :=
  match v with
  | Undefined => True
  | Str s => numeric_of_text s = None
  | Num _ => False
  end.

(** The [i]-th [?] of a statement, counting from 0. *)
Definition param (params : list value) (i : nat) : value := nth i params Null.

(* ================================================================== *)
(** * 2. Real-time truck tracking *)
(* ================================================================== *)

(** [[
    SELECT id, license_plate, current_lat AS lat, current_lng AS lng,
           strftime('%s', last_updated) AS timestamp
    FROM trucks
    WHERE last_updated > datetime('now', '-5 minutes')
    ORDER BY last_updated DESC
    ]] *)
Module Trucks.

Record json : Type := {
  id : Z;
  license_plate : value;
  lat : value;
  lng : value;
  timestamp : value
}.

Definition where_clause (now : Z) (t : Truck.row) : bool :=
  where_true
    (sql_gt (Truck.last_updated t)
            (datetime_now_modified now (Text "-5 minutes"))).

Definition order_desc (a b : Truck.row) : bool :=
  value_ltb (Truck.last_updated b) (Truck.last_updated a).

(** The rows selected, in the order of the result. *)
Definition selected (now : Z) (s : store) : list Truck.row :=
  order_by order_desc (filter (where_clause now) (trucks s)).

Definition columns (now : Z) (t : Truck.row) : json :=
  {| id := Truck.id t;
     license_plate := Truck.license_plate t;
     lat := Truck.current_lat t;
     lng := Truck.current_lng t;
     timestamp := strftime_s now (Truck.last_updated t) |}.

Definition statement (now : Z) (s : store) : list json :=
  map (columns now) (selected now s).

End Trucks.

(** [app.get('/api/gps/trucks', (req, res) => ...)], the operation the
    specification calls [listRecentVehiclePositions]: the request is not
    read. *)
Definition api_gps_trucks (d : db) (now : Z) (q : query)
  : response Trucks.json :=
  respond (db_all d (Trucks.statement now)).

(* ================================================================== *)
(** * 3. Load opportunities *)
(* ================================================================== *)

(** [[
    SELECT id, origin, destination, payload, revenue,
           (6371 * acos( ... )) AS distance
    FROM opportunities
    WHERE distance < ?
    AND expiry > datetime('now')
    ORDER BY revenue DESC
    LIMIT 50
    ]] *)
Module Opportunities.

(** A row of the table with the [distance] computed for it. *)
Definition candidate : Type := (Opportunity.row * value)%type.

Definition with_distance (M : libm) (params : list value)
  (o : Opportunity.row) : candidate :=
  (o, distance M (param params 0) (param params 1) (param params 2)
                 (Opportunity.origin_lat o) (Opportunity.origin_lng o)).

Definition where_clause (now : Z) (params : list value) (c : candidate)
  : bool :=
  where_true
    (sql_and (sql_lt (snd c) (param params 3))
             (sql_gt (Opportunity.expiry (fst c)) (datetime_now now))).

Definition order_desc (a b : candidate) : bool :=
  value_ltb (Opportunity.revenue (fst b)) (Opportunity.revenue (fst a)).

(** The rows that pass the [WHERE] clause, in table order. *)
Definition eligible (M : libm) (now : Z) (params : list value) (s : store)
  : list candidate :=
  filter (where_clause now params)
         (map (with_distance M params) (opportunities s)).

(** The rows selected, in the order of the result. *)
Definition selected (M : libm) (now : Z) (params : list value) (s : store)
  : list candidate :=
  limit 50 (order_by order_desc (eligible M now params s)).

Record json : Type := {
  id : Z;
  origin : value;
  destination : value;
  payload : value;
  revenue : value;
  distance : value
}.

Definition columns (c : candidate) : json :=
  {| id := Opportunity.id (fst c);
     origin := Opportunity.origin (fst c);
     destination := Opportunity.destination (fst c);
     payload := Opportunity.payload (fst c);
     revenue := Opportunity.revenue (fst c);
     distance := snd c |}.

Definition statement (M : libm) (now : Z) (params : list value) (s : store)
  : list json :=
  map columns (selected M now params s).

End Opportunities.

(** [app.get('/api/opportunities', ...)], the operation the specification
    calls [findOpportunities]:
    [[
    const { max_distance = 100 } = req.query;
    db.all(..., [req.query.lat, req.query.lng, req.query.lat, max_distance], ...)
    ]] *)
Definition opportunities_params (q : query) : list value :=
  let max_distance := with_default (get q "max_distance") (Num 100) in
  map bind [get q "lat"; get q "lng"; get q "lat"; max_distance].

Definition api_opportunities (M : libm) (d : db) (now : Z) (q : query)
  : response Opportunities.json :=
  respond (db_all d (Opportunities.statement M now (opportunities_params q))).

(* ================================================================== *)
(** * 4. Revenue analytics *)
(* ================================================================== *)

(** ** [GROUP BY] and the aggregates *)

Definition value_eqb (a b : value) : bool :=
  match value_compare a b with Eq => true | _ => false end.

(** The values [strftime] returns: NULL or text.  On them, equal keys are
    equal values. *)
Definition is_label (v : value) : bool :=
  match v with
  | Null | Text _ => true
  | _ => false
  end.

Section GroupBy.
Context {A : Type}.
Variable key : A -> value.

(** The row joins the group of its key, or opens a new one. *)
Fixpoint add_to_group (r : A) (groups : list (value * list A))
  : list (value * list A) :=
  match groups with
  | [] => [(key r, [r])]
  | (k, rows) :: groups' =>
      if value_eqb (key r) k then (k, (rows ++ [r])%list) :: groups'
      else (k, rows) :: add_to_group r groups'
  end.

Definition group_by (rows : list A) : list (value * list A) :=
  fold_left (fun groups r => add_to_group r groups) rows [].
End GroupBy.

(** The longest prefix of a text that is a number, as a double (0 when
    there is none): what an arithmetic context makes of text. *)
Definition prefix_double (s : string) : float :=
  let '(neg, s1) := read_sign (skip_spaces s) in
  let '(ip, ni, s2) := read_digits 0 0 s1 in
  let '(m, nf, dot, s3) := read_fraction ip s2 in
  let '(ex, evalid, hasexp, s4) := read_exponent s3 in
  let r := float_of_decimal m ((if evalid then ex else 0) - nf) in
  if neg then (- r)%float else r.

(** [SUM(X)]: NULL values are skipped; the others are added as doubles, in
    the order of the rows; NULL when nothing was added.  (The sum of the
    model is the plain one, without the compensation of rounding errors
    that later versions of SQLite apply; an integer is added as the double
    it is stored as in a [REAL] column.) *)
Definition sum_step (acc : option float) (v : value) : option float :=
  let add x :=
    match acc with
    | Some a => Some (a + x)%float
    | None => Some (0 + x)%float
    end in
  match v with
  | Null => acc
  | Integer i => add (float_of_Z i)
  | Real r => add r
  | Text s | Blob s => add (prefix_double s)
  end.

Definition sql_sum (vs : list value) : value :=
  match fold_left sum_step vs None with
  | Some total => real_result total
  | None => Null
  end.

(** [COUNT( * )]. *)
Definition sql_count {A : Type} (rows : list A) : Z :=
  Z.of_nat (List.length rows).

(** [[
    SELECT strftime('%Y-%m', timestamp) AS timeframe,
           SUM(revenue) AS total,
           COUNT( * ) AS shipments
    FROM shipments
    WHERE timestamp > datetime('now', ?)
    GROUP BY timeframe
    ORDER BY timeframe
    ]] *)
Module Revenue.

Definition where_clause (now : Z) (params : list value) (r : Shipment.row)
  : bool :=
  where_true
    (sql_gt (Shipment.timestamp r)
            (datetime_now_modified now (param params 0))).

(** The rows of the window. *)
Definition window (now : Z) (params : list value) (s : store)
  : list Shipment.row :=
  filter (where_clause now params) (shipments s).

Definition timeframe_of (now : Z) (r : Shipment.row) : value :=
  strftime_Ym now (Shipment.timestamp r).

Record json : Type := {
  timeframe : value;
  total : value;
  shipments : Z
}.

Definition aggregate (g : value * list Shipment.row) : json :=
  {| timeframe := fst g;
     total := sql_sum (map Shipment.revenue (snd g));
     shipments := sql_count (snd g) |}.

Definition order_asc (a b : json) : bool :=
  value_ltb (timeframe a) (timeframe b).

Definition statement (now : Z) (params : list value) (s : store)
  : list json :=
  order_by order_asc
    (map aggregate (group_by (timeframe_of now) (window now params s))).

(** The [shipments] counts of a result, added up. *)
Definition total_shipments (rows : list json) : Z :=
  fold_right (fun b n => shipments b + n) 0 rows.

End Revenue.

(** [app.get('/api/analytics/revenue', ...)], the operation the
    specification calls [revenueByPeriod]:
    [[
    const { period = 'month' } = req.query;
    db.all(..., [`-1 ${period}`], ...)
    ]] *)
Definition period_of (q : query) : string :=
  match with_default (get q "period") (Str "month") with
  | Str s => s
  | Num n => string_of_Z n
  | Undefined => "undefined"
  end.

Definition revenue_params (q : query) : list value :=
  [bind (Str ("-1 " ++ period_of q))].

Definition api_analytics_revenue (d : db) (now : Z) (q : query)
  : response Revenue.json :=
  respond (db_all d (Revenue.statement now (revenue_params q))).

(* ================================================================== *)
(** * The specification's wording *)
(* ================================================================== *)

(** Definitions written from the specification, to be compared with the
    ones above. *)
Module Spec.

(** [clamp(x, lo, hi)]. *)
Definition clamp (v : value) (lo hi : float) : value :=
  match v with
  | Real x =>
      if (x <? lo)%float then Real lo
      else if (hi <? x)%float then Real hi
      else Real x
  | _ => v
  end.

(** [distance = 6371 * arccos(clamp(cos(rad(lat)) * cos(rad(oLat)) *
    cos(rad(oLng) - rad(lng)) + sin(rad(lat)) * sin(rad(oLat)), -1, 1))]. *)
Definition distance (M : libm) (lat lng oLat oLng : value) : value :=
  sql_mul (Integer 6371)
    (math1 (acos M)
       (clamp (cosine_of_angle M lat lng lat oLat oLng) (-1) 1)).

(** Ranking: descending by revenue; ties broken by ascending distance,
    then by ascending id.  [ranked a b]: [a] may stand before [b]. *)
Definition ranked (a b : Opportunities.candidate) : bool :=
  match value_compare (Opportunity.revenue (fst b))
                      (Opportunity.revenue (fst a)) with
  | Lt => true
  | Gt => false
  | Eq =>
      match value_compare (snd a) (snd b) with
      | Lt => true
      | Gt => false
      | Eq => Opportunity.id (fst a) <=? Opportunity.id (fst b)
      end
  end.

(** [lastUpdated > now - windowMinutes]. *)
Definition fresh (now windowMinutes : Z) (t : Truck.row) : bool :=
  match read_time now (Truck.last_updated t) with
  | Some tv => now - windowMinutes * 60 <? tv_unix tv
  | None => false
  end.

(** [period: enum{day, week, month, year}]. *)
Definition recognized (period : string) : bool :=
  String.eqb period "day" || String.eqb period "week"
  || String.eqb period "month" || String.eqb period "year".

(** [timestamp > now - 1 period], for the period of fixed length that
    SQLite has no unit for. *)
Definition in_last_week (now : Z) (r : Shipment.row) : bool :=
  match read_time now (Shipment.timestamp r) with
  | Some tv => now - 7 * 86400 <? tv_unix tv
  | None => false
  end.

End Spec.

(* ================================================================== *)
(** * Sample data *)
(* ================================================================== *)

Module Sample.

(** The C library at the arguments the examples below reach.  Each entry
    is the double nearest to the exact cosine, sine or arc cosine of its
    argument, which is what glibc returns there ([cos 0 = 1], [sin 0 = 0]
    and [acos 1 = 0] are the same in every C library).  [cos] is even;
    [acos] of an argument outside [-1, 1] is a domain error, NaN.  An
    argument the tables do not list gives NaN, which SQLite turns into
    NULL, so that an example that left the tables would lose its row. *)
Definition table (entries : list (float * float)) (x : float) : float :=
  match find (fun e => (fst e =? x)%float) entries with
  | Some e => snd e
  | None => nan
  end.

Definition cos_table : list (float * float) :=
  [ (0, 1);
    (0x1.1df46a2529d39p-7, 0x1.fffb02599c9cdp-1);   (* radians(0.5) *)
    (0x1.acee9f37bebd6p-3, 0x1.f4cfc327a0080p-1);   (* radians(12) *)
    (0x1.657184ae74487p-1, 0x1.8836fa2cf5039p-1);   (* radians(40) *)
    (0x1.6e6127ff9d971p-1, 0x1.82694b4a11c37p-1);   (* radians(41) *)
    (0x1.1df46a2529d40p-6, 0x1.ffec097f5af8ap-1)    (* radians(-74) - radians(-73) *)
  ]%float.

Definition sin_table : list (float * float) :=
  [ (0, 0);
    (0x1.1df46a2529d39p-7, 0x1.1df37c4954c21p-7);
    (0x1.acee9f37bebd6p-3, 0x1.a9cd9ac4258f6p-3);
    (0x1.657184ae74487p-1, 0x1.491b7523c161cp-1);
    (0x1.6e6127ff9d971p-1, 0x1.4fe6f81384fd4p-1)
  ]%float.

Definition acos_table : list (float * float) :=
  [ (1, 0);
    (0x1.fffb02599c9cdp-1, 0x1.1df46a25297d1p-7);
    (0x1.f4cfc327a0080p-1, 0x1.acee9f37bebcdp-3);
    (0x1.ffe07ee7f1fcap-1, 0x1.673b0d15acdcdp-6);
    (0x1.fffffffffffffp-1, 0x1p-26)
  ]%float.

Definition glibc : libm := {|
  cos := fun x => table cos_table (abs x);
  sin := table sin_table;
  acos := fun x =>
    if ((x <? -1) || (1 <? x))%float then nan else table acos_table x
|}.

(** 2024-05-15 10:00:00 UTC. *)
Definition clock : Z := 1715767200.

Definition load (id : Z) (lat lng revenue : float) : Opportunity.row :=
  {| Opportunity.id := id;
     Opportunity.origin := Text "Depot";
     Opportunity.destination := Text "Port";
     Opportunity.payload := Text "pallets";
     Opportunity.revenue := Real revenue;
     Opportunity.origin_lat := Real lat;
     Opportunity.origin_lng := Real lng;
     Opportunity.expiry := Text "2030-01-01 00:00:00" |}.

Definition truck (id : Z) (plate updated : string) : Truck.row :=
  {| Truck.id := id;
     Truck.license_plate := Text plate;
     Truck.current_lat := Real 52.5;
     Truck.current_lng := Real 13.5;
     Truck.last_updated := Text updated |}.

Definition shipment (completed : string) (revenue : float) : Shipment.row :=
  {| Shipment.timestamp := Text completed;
     Shipment.revenue := Real revenue |}.

(** Two loads of equal revenue, the first half a degree north of the
    second; one load at latitude 12; three trucks last seen 3, 10 and 2
    minutes before [clock]; shipments of the last hour, of the day before
    and of the month before. *)
Definition depot : store := {|
  trucks := [ truck 1 "B-TR 101" "2024-05-15 09:57:00";
              truck 2 "B-TR 102" "2024-05-15 09:50:00";
              truck 3 "B-TR 103" "2024-05-15 09:58:00" ];
  opportunities := [ load 1 0.5 0 100; load 2 0 0 100; load 3 12 0 250 ];
  shipments := [ shipment "2024-05-15 09:30:00" 10;
                 shipment "2024-05-14 23:00:00" 2.5;
                 shipment "2024-04-20 08:00:00" 40 ]
|}.

(** The example of the specification: loads at (40, -73) and (41, -74). *)
Definition coast : store := {|
  trucks := [];
  opportunities := [ load 1 40 (-73) 500; load 2 41 (-74) 900 ];
  shipments := []
|}.

(** One load, at (12, 0). *)
Definition doorstep : store := {|
  trucks := [];
  opportunities := [ load 1 12 0 250 ];
  shipments := []
|}.

(** 52 loads at (0, 0); load [i] pays [i]. *)
Definition crowded : store := {|
  trucks := [];
  opportunities :=
    map (fun i => load (Z.of_nat i) 0 0 (float_of_Z (Z.of_nat i)))
        (seq 1 52);
  shipments := []
|}.

End Sample.

(* ================================================================== *)
(** * Configuration *)
(* ================================================================== *)

(** What [app.js] computes from the environment when it starts.  An
    environment variable is a string or is not set. *)
Module Config.

(** [s.split(sep)] for a one-character separator: the pieces between the
    separators, empty pieces included; the empty string gives one empty
    piece. *)
Fixpoint split (sep : ascii) (s : string) : list string :=
  match s with
  | EmptyString => [EmptyString]
  | String c s' =>
      if Ascii.eqb c sep then EmptyString :: split sep s'
      else
        match split sep s' with
        | piece :: pieces => String c piece :: pieces
        | [] => [String c EmptyString]
        end
  end.

(** The [origin] option given to [cors]: a string or an array of strings. *)
Inductive origin : Type :=
| OriginString (s : string)
| OriginList (l : list string).

(** [process.env.CORS_ORIGINS?.split(',') || '*']: an array is truthy, so
    ['*'] is used only when the variable is not set. *)
Definition cors_origin (CORS_ORIGINS : option string) : origin :=
  match CORS_ORIGINS with
  | Some s => OriginList (split "," s)
  | None => OriginString "*"
  end.

End Config.

(** Whether the character occurs in the text. *)
Fixpoint occurs (c : ascii) (s : string) : bool :=
  match s with
  | String c' s' => Ascii.eqb c' c || occurs c s'
  | EmptyString => false
  end.

(* ================================================================== *)
(** * Kinds of values *)
(* ================================================================== *)

(** A number: INTEGER or REAL. *)
Definition is_number (v : value) : bool :=
  match v with
  | Integer _ | Real _ => true
  | _ => false
  end.

Definition is_null (v : value) : bool :=
  match v with
  | Null => true
  | _ => false
  end.

Definition is_real (v : value) : bool :=
  match v with
  | Real _ => true
  | _ => false
  end.

(** A distance that is a number below the bound, as doubles compare. *)
Definition below (bound : float) (v : value) : bool :=
  match v with
  | Real d => (d <? bound)%float
  | _ => false
  end.

(** What a column declared [REAL] holds: NULL, a double that is not NaN
    (an integer is converted when it is stored, and NaN is stored as
    NULL), or a text or blob that is not a number. *)
Definition real_column_value (v : value) : bool :=
  match v with
  | Integer _ => false
  | Real r => negb (is_nan r)
  | Null | Text _ | Blob _ => true
  end.

(* ================================================================== *)
(** * Facts about doubles *)
(* ================================================================== *)

Section FloatFacts.







Lemma SFcompare_antisym (a b : spec_float) :
  SFcompare b a = option_map CompOpp (SFcompare a b).
Proof.
  destruct a as [sa|sa| |sa ma ea], b as [sb|sb| |sb mb eb]; simpl;
    try reflexivity;
    try (destruct sa; reflexivity); try (destruct sb; reflexivity);
    try (destruct sa, sb; reflexivity).
  destruct sa, sb; try reflexivity;
    rewrite (Z.compare_antisym ea eb);
    destruct (ea ?= eb); simpl; try reflexivity;
    rewrite (Pos.compare_cont_antisym ma mb Eq); simpl;
    now rewrite ?CompOpp_involutive.
Qed.




Lemma float_compare_antisym (x y : float) :
  float_compare y x = CompOpp (float_compare x y).
Proof.
  unfold float_compare. rewrite !compare_spec, (SFcompare_antisym (Prim2SF x)).
  destruct (SFcompare (Prim2SF x) (Prim2SF y)) as [[ | | ]|]; reflexivity.
Qed.

End FloatFacts.

(* ================================================================== *)
(** * Facts about the order of values *)
(* ================================================================== *)

Lemma value_compare_antisym (a b : value) :
  value_compare b a = CompOpp (value_compare a b).
Proof.
  destruct a, b; simpl; try reflexivity.
  - apply Z.compare_antisym.
  - now rewrite CompOpp_involutive.
  - apply float_compare_antisym.
  - apply String.compare_antisym.
  - apply String.compare_antisym.
Qed.

Lemma value_ltb_asym (a b : value) :
  value_ltb a b = true -> value_ltb b a = false.
Proof.
  unfold value_ltb. rewrite (value_compare_antisym a b).
  destruct (value_compare a b); simpl; congruence.
Qed.

(* ================================================================== *)
(** * Facts about [ORDER BY] and [LIMIT] *)
(* ================================================================== *)

Section OrderByFacts.
Context {A : Type}.
Variable before : A -> A -> bool.

Lemma insert_row_In (x y : A) (l : list A) :
  In y (insert_row before x l) <-> y = x \/ In y l.
Proof.
  induction l as [|z l IH]; simpl.
  - intuition congruence.
  - destruct (before z x); simpl; rewrite ?IH; intuition congruence.
Qed.

Lemma order_by_In (y : A) (l : list A) :
  In y (order_by before l) <-> In y l.
Proof.
  induction l as [|x l IH]; simpl; [tauto|].
  rewrite insert_row_In, IH. intuition congruence.
Qed.

Lemma insert_row_length (x : A) (l : list A) :
  List.length (insert_row before x l) = S (List.length l).
Proof.
  induction l as [|z l IH]; simpl; [reflexivity|].
  destruct (before z x); simpl; now rewrite ?IH.
Qed.

Lemma order_by_length (l : list A) :
  List.length (order_by before l) = List.length l.
Proof.
  induction l as [|x l IH]; simpl; [reflexivity|].
  now rewrite insert_row_length, IH.
Qed.

Lemma order_by_nil : order_by before [] = [].
Proof. reflexivity. Qed.

(** A row never stands directly in front of one that must precede it. *)
Hypothesis before_asym : forall x y, before x y = true -> before y x = false.

Lemma insert_row_HdRel (x y : A) (l : list A) :
  before x y = false ->
  HdRel (fun a b => before b a = false) y l ->
  HdRel (fun a b => before b a = false) y (insert_row before x l).
Proof.
  intros Hxy Hl. destruct l as [|z l]; simpl.
  - now constructor.
  - destruct (before z x); constructor; [now inversion Hl | exact Hxy].
Qed.

Lemma insert_row_sorted (x : A) (l : list A) :
  Sorted (fun a b => before b a = false) l ->
  Sorted (fun a b => before b a = false) (insert_row before x l).
Proof.
  induction l as [|y l IH]; simpl; intros Hs.
  - repeat constructor.
  - destruct (before y x) eqn:Hyx.
    + inversion Hs; subst. constructor; [now apply IH|].
      apply insert_row_HdRel; [now apply before_asym | assumption].
    + constructor; [assumption | now constructor].
Qed.

Lemma order_by_sorted (l : list A) :
  Sorted (fun a b => before b a = false) (order_by before l).
Proof.
  induction l as [|x l IH]; simpl; [constructor|].
  now apply insert_row_sorted.
Qed.

End OrderByFacts.

Lemma limit_sorted {A : Type} (R : A -> A -> Prop) (n : nat) (l : list A) :
  Sorted R l -> Sorted R (limit n l).
Proof.
  unfold limit. revert n.
  induction l as [|x l IH]; intros [|n] Hs; simpl; try constructor.
  - apply IH. now inversion Hs.
  - inversion Hs as [|? ? _ Hd]; subst.
    destruct l as [|y l]; destruct n; simpl; constructor.
    now inversion Hd.
Qed.

Lemma limit_length {A : Type} (n : nat) (l : list A) :
  (List.length (limit n l) <= n)%nat.
Proof. apply firstn_le_length. Qed.

Lemma limit_In {A : Type} (n : nat) (x : A) (l : list A) :
  In x (limit n l) -> In x l.
Proof.
  unfold limit. revert n.
  induction l as [|y l IH]; intros [|n]; simpl; try tauto.
  intros [H | H]; [now left | right; now apply (IH n)].
Qed.

(* ================================================================== *)
(** * Facts about [GROUP BY] *)
(* ================================================================== *)

Lemma string_compare_refl (s : string) : String.compare s s = Eq.
Proof.
  pose proof (String.compare_antisym s s) as H.
  destruct (String.compare s s); simpl in H; congruence.
Qed.

Lemma value_eqb_label (a b : value) :
  is_label a = true -> is_label b = true ->
  (value_eqb a b = true <-> a = b).
Proof.
  unfold value_eqb.
  destruct a as [| | |s|], b as [| | |t|]; simpl; try discriminate; intros _ _;
    try (split; [discriminate | congruence]); try tauto.
  split.
  - destruct (String.compare s t) eqn:E; try discriminate.
    apply String.compare_eq_iff in E. now subst.
  - intros [= ->]. now rewrite string_compare_refl.
Qed.

Lemma filter_none {A : Type} (f : A -> bool) (l : list A) :
  (forall x, In x l -> f x = false) -> filter f l = [].
Proof.
  induction l as [|x l IH]; simpl; intros H; [reflexivity|].
  rewrite (H x) by auto. apply IH. auto.
Qed.

Lemma NoDup_snoc {A : Type} (a : A) (l : list A) :
  NoDup l -> ~ In a l -> NoDup (l ++ [a]).
Proof.
  induction l as [|x l IH]; simpl; intros Hnd Hin.
  - constructor; [tauto | constructor].
  - inversion Hnd; subst. constructor.
    + rewrite in_app_iff. simpl. intuition congruence.
    + apply IH; tauto.
Qed.

Lemma strftime_Ym_label (now : Z) (v : value) :
  is_label (strftime_Ym now v) = true.
Proof. unfold strftime_Ym. now destruct (read_time now v). Qed.

Section GroupByFacts.
Context {A : Type}.
Variable key : A -> value.
Hypothesis key_label : forall r, is_label (key r) = true.

Lemma group_by_snoc (l : list A) (r : A) :
  group_by key (l ++ [r])%list = add_to_group key r (group_by key l).
Proof. unfold group_by. now rewrite fold_left_app. Qed.

(** Either the row opens a new group at the end, or it joins the one
    group whose key is its own. *)
Lemma add_to_group_cases (r : A) (gs : list (value * list A)) :
  (Forall (fun g => value_eqb (key r) (fst g) = false) gs
   /\ add_to_group key r gs = (gs ++ [(key r, [r])])%list)
  \/ exists g1 k rows g2,
       gs = (g1 ++ (k, rows) :: g2)%list
       /\ Forall (fun g => value_eqb (key r) (fst g) = false) g1
       /\ value_eqb (key r) k = true
       /\ add_to_group key r gs = (g1 ++ (k, (rows ++ [r])%list) :: g2)%list.
Proof.
  induction gs as [|[k rows] gs IH]; simpl.
  - left. split; [constructor | reflexivity].
  - destruct (value_eqb (key r) k) eqn:E.
    + right. exists [], k, rows, gs. simpl. repeat split; auto.
    + destruct IH as [[Hall Heq] | (g1 & k' & rows' & g2 & Hgs & Hall & Hk & Heq)].
      * left. split; [constructor; auto | now rewrite Heq].
      * right. exists ((k, rows) :: g1), k', rows', g2. simpl.
        repeat split; auto; [now rewrite Hgs | now rewrite Heq].
Qed.

(** What [group_by] keeps true of the groups [gs] built from the rows [l]:
    the keys are those of the rows of [l], each once, and each group holds
    the rows of [l] with its key, in their order. *)
Lemma group_by_spec (l : list A) :
  let gs := group_by key l in
  NoDup (map fst gs)
  /\ (forall x, In x l -> In (key x) (map fst gs))
  /\ Forall (fun g =>
        is_label (fst g) = true /\ snd g <> []
        /\ snd g = filter (fun x => value_eqb (key x) (fst g)) l) gs.
Proof.
  induction l as [|r l IH] using rev_ind; simpl.
  - repeat split; [constructor | tauto | constructor].
  - rewrite group_by_snoc.
    destruct IH as (Hnd & Hcov & Hall).
    assert (Hrefl : value_eqb (key r) (key r) = true)
      by (apply value_eqb_label; auto).
    assert (Hone : forall g, In g (group_by key l) ->
              snd g = filter (fun x => value_eqb (key x) (fst g)) l
              /\ is_label (fst g) = true /\ snd g <> [])
      by (intros g Hg; rewrite Forall_forall in Hall;
          destruct (Hall g Hg) as (? & ? & ?); auto).
    assert (Hother : forall g, In g (group_by key l) ->
              value_eqb (key r) (fst g) = false ->
              snd g = filter (fun x => value_eqb (key x) (fst g)) (l ++ [r])).
    { intros g Hg Hne. rewrite filter_app. simpl. rewrite Hne, app_nil_r.
      now apply Hone. }
    destruct (add_to_group_cases r (group_by key l))
      as [[Hnone Heq] | (g1 & k & rows & g2 & Hgs & Hnone & Hk & Heq)];
      rewrite Heq.
    + (* a new group *)
      assert (Hfresh : ~ In (key r) (map fst (group_by key l))).
      { intros Hin. apply in_map_iff in Hin. destruct Hin as (g & Hg & Hin).
        rewrite Forall_forall in Hnone. specialize (Hnone g Hin).
        rewrite Hg in Hnone. congruence. }
      repeat split.
      * rewrite map_app. simpl. now apply NoDup_snoc.
      * intros x Hx. rewrite map_app, in_app_iff. simpl.
        apply in_app_iff in Hx. destruct Hx as [Hx | [<- | []]]; auto.
      * apply Forall_app. split.
        -- rewrite Forall_forall. intros g Hg.
           rewrite Forall_forall in Hnone.
           destruct (Hone g Hg) as (_ & ? & ?). auto.
        -- constructor; [|constructor]. simpl.
           repeat split; auto; [discriminate|].
           rewrite filter_app. simpl. rewrite Hrefl.
           rewrite filter_none; [reflexivity|]. intros x Hx.
           destruct (value_eqb (key x) (key r)) eqn:E; [|reflexivity].
           apply value_eqb_label in E; auto.
           exfalso. apply Hfresh. rewrite <- E. now apply Hcov.
    + (* the group of key [k] *)
      assert (Hkr : key r = k).
      { apply value_eqb_label; auto.
        apply (Hone (k, rows)). rewrite Hgs, in_app_iff. simpl. auto. }
      assert (Hkeys : map fst (g1 ++ (k, (rows ++ [r])%list) :: g2)
                      = map fst (group_by key l))
        by (rewrite Hgs, !map_app; reflexivity).
      repeat split.
      * now rewrite Hkeys.
      * intros x Hx. rewrite Hkeys.
        apply in_app_iff in Hx. destruct Hx as [Hx | [<- | []]]; auto.
        rewrite Hkr, Hgs, map_app, in_app_iff. simpl. auto.
      * rewrite Forall_forall. intros g Hg.
        apply in_app_iff in Hg. simpl in Hg.
        destruct Hg as [Hg | [<- | Hg]].
        -- assert (Hin : In g (group_by key l))
             by (rewrite Hgs, in_app_iff; auto).
           rewrite Forall_forall in Hnone.
           destruct (Hone g Hin) as (_ & ? & ?). auto.
        -- assert (Hin : In (k, rows) (group_by key l))
             by (rewrite Hgs, in_app_iff; simpl; auto).
           destruct (Hone _ Hin) as (Hrows & Hlab & _). simpl in *.
           repeat split; auto.
           ++ now destruct rows.
           ++ rewrite filter_app. simpl. rewrite Hk. now rewrite <- Hrows.
        -- assert (Hin : In g (group_by key l))
             by (rewrite Hgs, in_app_iff; simpl; auto).
           destruct (Hone g Hin) as (_ & Hlab & Hne).
           repeat split; auto. apply Hother; auto.
           destruct (value_eqb (key r) (fst g)) eqn:E; [|reflexivity].
           apply value_eqb_label in E; auto.
           exfalso. rewrite Hgs, map_app in Hnd. simpl in Hnd.
           apply NoDup_remove_2 in Hnd. apply Hnd.
           rewrite in_app_iff. right.
           rewrite <- Hkr, E. now apply in_map.
Qed.

End GroupByFacts.

(* ================================================================== *)
(** * Facts about the distance expression *)
(* ================================================================== *)

Lemma math1_no_number (f : float -> float) (v : value) :
  numeric_double v = None -> math1 f v = Null.
Proof. unfold math1. now intros ->. Qed.


Lemma radians_no_number (v : value) :
  numeric_double v = None -> radians v = Null.
Proof. apply math1_no_number. Qed.

Lemma real_arith_null_l (op : float -> float -> float) (b : value) :
  real_arith op Null b = Null.
Proof. reflexivity. Qed.

Lemma real_arith_null_r (op : float -> float -> float) (a : value) :
  real_arith op a Null = Null.
Proof. unfold real_arith. now destruct (numeric_double a). Qed.



(** Without a number for the first or the second parameter there is no
    distance. *)
Lemma distance_null (M : libm) (p1 p2 p3 origin_lat origin_lng : value) :
  numeric_double p1 = None \/ numeric_double p2 = None ->
  distance M p1 p2 p3 origin_lat origin_lng = Null.
Proof.
  intros H. unfold distance, cosine_of_angle.
  assert (Hcos : sql_mul
            (sql_mul (math1 (cos M) (radians p1))
                     (math1 (cos M) (radians origin_lat)))
            (math1 (cos M) (sql_sub (radians origin_lng) (radians p2)))
          = Null).
  { destruct H as [H | H].
    - now rewrite (radians_no_number p1 H).
    - rewrite (radians_no_number p2 H).
      unfold sql_sub. rewrite real_arith_null_r.
      unfold sql_mul. now rewrite real_arith_null_r. }
  rewrite Hcos. unfold sql_add. rewrite real_arith_null_l.
  unfold sql_mul. now rewrite real_arith_null_r.
Qed.

Lemma missing_or_non_numeric_no_number (v : js_value) :
  missing_or_non_numeric v -> numeric_double (bind v) = None.
Proof.
  destruct v as [|s|n]; simpl; try tauto.
  now intros ->.
Qed.

(* ================================================================== *)
(** * Facts about the three statements *)
(* ================================================================== *)

Lemma where_true_spec (c : option bool) : where_true c = true <-> c = Some true.
Proof. destruct c as [[|]|]; simpl; split; congruence. Qed.

Lemma sql_and_true (x y : option bool) :
  sql_and x y = Some true <-> x = Some true /\ y = Some true.
Proof.
  destruct x as [[|]|], y as [[|]|]; simpl; split;
    try congruence; try tauto; intros [? ?]; congruence.
Qed.

Lemma Sorted_map {A B : Type} (f : A -> B) (R : B -> B -> Prop) (l : list A) :
  Sorted (fun a b => R (f a) (f b)) l -> Sorted R (map f l).
Proof.
  induction 1 as [|x l Hs IH Hd]; simpl; constructor; auto.
  destruct Hd; simpl; constructor; auto.
Qed.

(** Without a number for [lat] or [lng] the [WHERE] clause keeps nothing. *)
Lemma opportunities_empty (M : libm) (now : Z) (q : query) (s : store) :
  numeric_double (bind (get q "lat")) = None
  \/ numeric_double (bind (get q "lng")) = None ->
  Opportunities.statement M now (opportunities_params q) s = [].
Proof.
  intros H. unfold Opportunities.statement, Opportunities.selected,
    Opportunities.eligible.
  rewrite filter_none; [reflexivity|].
  intros c Hc. apply in_map_iff in Hc. destruct Hc as (o & <- & _).
  unfold Opportunities.where_clause, Opportunities.with_distance. simpl snd.
  unfold opportunities_params, param. simpl nth.
  rewrite distance_null by exact H.
  destruct (sql_gt (Opportunity.expiry (fst (o, Null))) (datetime_now now))
    as [[|]|]; reflexivity.
Qed.

Lemma five_minutes_ago (now : Z) :
  datetime_now_modified now (Text "-5 minutes")
  = format_datetime (datetime_of_unix (now - 300)).
Proof.
  unfold datetime_now_modified.
  change (parse_modifier "-5 minutes") with (Some (-5, Minute)).
  unfold apply_modifier. now replace (now + -5 * 60) with (now - 300) by lia.
Qed.

Lemma total_shipments_insert (x : Revenue.json) (l : list Revenue.json) :
  Revenue.total_shipments (insert_row Revenue.order_asc x l)
  = Revenue.shipments x + Revenue.total_shipments l.
Proof.
  induction l as [|y l IH]; simpl; [reflexivity|].
  destruct (Revenue.order_asc y x); simpl; [rewrite IH|]; lia.
Qed.

Lemma total_shipments_order_by (l : list Revenue.json) :
  Revenue.total_shipments (order_by Revenue.order_asc l)
  = Revenue.total_shipments l.
Proof.
  induction l as [|x l IH]; simpl; [reflexivity|].
  now rewrite total_shipments_insert, IH.
Qed.

Lemma total_shipments_add {now : Z} (r : Shipment.row)
  (gs : list (value * list Shipment.row)) :
  Revenue.total_shipments
    (map Revenue.aggregate (add_to_group (Revenue.timeframe_of now) r gs))
  = Revenue.total_shipments (map Revenue.aggregate gs) + 1.
Proof.
  induction gs as [|[k rows] gs IH]; simpl; [reflexivity|].
  destruct (value_eqb _ k); simpl.
  - unfold sql_count. rewrite length_app. simpl. lia.
  - rewrite IH. lia.
Qed.

Lemma total_shipments_group_by (now : Z) (l : list Shipment.row) :
  Revenue.total_shipments
    (map Revenue.aggregate (group_by (Revenue.timeframe_of now) l))
  = Z.of_nat (List.length l).
Proof.
  induction l as [|r l IH] using rev_ind; [reflexivity|].
  rewrite group_by_snoc, total_shipments_add, IH, length_app. simpl. lia.
Qed.

Lemma insert_row_NoDup_map {A B : Type} (before : A -> A -> bool)
  (f : A -> B) (x : A) (l : list A) :
  NoDup (map f (x :: l)) -> NoDup (map f (insert_row before x l)).
Proof.
  induction l as [|y l IH]; simpl; intros H; [exact H|].
  destruct (before y x); simpl; [|exact H].
  inversion H as [|? ? Hx Hrest]; subst.
  inversion Hrest as [|? ? Hy Hl]; subst. simpl in Hx.
  constructor.
  - intros Hin. apply in_map_iff in Hin. destruct Hin as (z & Hz & Hin).
    apply insert_row_In in Hin. destruct Hin as [-> | Hin].
    + apply Hx. now left.
    + apply Hy. rewrite <- Hz. now apply in_map.
  - apply IH. simpl. constructor; [tauto | assumption].
Qed.

Lemma order_by_NoDup_map {A B : Type} (before : A -> A -> bool)
  (f : A -> B) (l : list A) :
  NoDup (map f l) -> NoDup (map f (order_by before l)).
Proof.
  induction l as [|x l IH]; simpl; intros H; [exact H|].
  apply insert_row_NoDup_map. simpl.
  inversion H as [|? ? Hx Hl]; subst. constructor; [|now apply IH].
  intros Hin. apply Hx. apply in_map_iff in Hin.
  destruct Hin as (z & Hz & Hin). apply order_by_In in Hin.
  rewrite <- Hz. now apply in_map.
Qed.

(* ================================================================== *)
(** * The claims *)
(* ================================================================== *)

(** ** Load opportunities: the filter *)

(** What the [WHERE] clause guarantees of every row of the result, with
    SQLite's comparisons: [distance < ?] and [expiry > datetime('now')];
    and the result has at most 50 rows, the first 50 of the ranking of
    all eligible rows. *)
Lemma opportunities_selected (M : libm) (now : Z) (params : list value)
  (s : store) (c : Opportunities.candidate) :
  In c (Opportunities.selected M now params s) ->
  sql_lt (snd c) (param params 3) = Some true
  /\ sql_gt (Opportunity.expiry (fst c)) (datetime_now now) = Some true.
Proof.
  intros H. apply limit_In, order_by_In, filter_In in H.
  destruct H as [_ H]. unfold Opportunities.where_clause in H.
  now apply where_true_spec, sql_and_true in H.
Qed.

Lemma opportunities_at_most_50 (M : libm) (now : Z) (params : list value)
  (s : store) :
  (List.length (Opportunities.statement M now params s) <= 50)%nat.
Proof.
  unfold Opportunities.statement. rewrite length_map. apply limit_length.
Qed.

(** With [max_distance] left out, the bound is the number 100. *)
Lemma opportunities_default_bound (q : query) :
  get q "max_distance" = Undefined ->
  param (opportunities_params q) 3 = Integer 100.
Proof. unfold opportunities_params, param. simpl. now intros ->. Qed.

(** With [max_distance] given, the bound is text, and every distance that
    is a number is smaller than any text. *)
Lemma opportunities_text_bound (q : query) (m : string) (d : float) :
  get q "max_distance" = Str m ->
  sql_lt (Real d) (param (opportunities_params q) 3) = Some true.
Proof. unfold opportunities_params, param. simpl. now intros ->. Qed.

(** The distance is NULL or a double. *)
Lemma distance_null_or_real (M : libm) (p1 p2 p3 la lo : value) :
  distance M p1 p2 p3 la lo = Null
  \/ exists d, distance M p1 p2 p3 la lo = Real d.
Proof.
  unfold distance, sql_mul, real_arith.
  destruct (numeric_double (Integer 6371)); [|now left].
  destruct (numeric_double _); [|now left].
  unfold real_result. destruct (is_nan _); [now left | right; eauto].
Qed.

(** A bound given in the query string has no influence on the result:
    any two values of [max_distance] give the same response. *)
Lemma supplied_max_distance_is_irrelevant (M : libm) (d : db) (now : Z)
  (q : query) (m1 m2 : string) :
  api_opportunities M d now (("max_distance", m1) :: q)
  = api_opportunities M d now (("max_distance", m2) :: q).
Proof.
  destruct d as [message | s]; [reflexivity|].
  unfold api_opportunities, db_all, respond. f_equal.
  unfold Opportunities.statement, Opportunities.selected,
    Opportunities.eligible.
  do 3 f_equal.
  unfold opportunities_params, Opportunities.with_distance, param. simpl.
  induction (opportunities s) as [|o l IH]; simpl; [reflexivity|].
  rewrite IH. unfold Opportunities.where_clause at 1 3. simpl.
  destruct (distance_null_or_real M (bind (get q "lat")) (bind (get q "lng"))
              (bind (get q "lat")) (Opportunity.origin_lat o)
              (Opportunity.origin_lng o)) as [-> | [r ->]]; reflexivity.
Qed.

(** With [max_distance] left out the bound is the number 100: from (0, 0)
    the loads at 55.6 km and 0 km are returned, the one at 1334.3 km is
    not. *)
Example default_bound_is_numeric :
  api_opportunities Sample.glibc (Available Sample.depot) Sample.clock
    [("lat", "0"); ("lng", "0")]
  = Json (map Opportunities.columns
            [ (Sample.load 1 0.5 0 100, Real 0x1.bcc79ad9ad783p+5);
              (Sample.load 2 0 0 100, Real 0) ]).
Proof. vm_compute. reflexivity. Qed.

(** C1 (the code at the failing input).  The request
    [?lat=0&lng=0&max_distance=5] on the sample store returns the three
    loads, at 1334.3 km, 55.6 km and 0 km: [max_distance] arrives as the
    text ["5"], and [distance < '5'] holds for every distance that is a
    number. *)
Theorem max_distance_as_text_filters_nothing :
  api_opportunities Sample.glibc (Available Sample.depot) Sample.clock
    [("lat", "0"); ("lng", "0"); ("max_distance", "5")]
  = Json (map Opportunities.columns
            [ (Sample.load 3 12 0 250, Real 0x1.4d95b423427eap+10);
              (Sample.load 1 0.5 0 100, Real 0x1.bcc79ad9ad783p+5);
              (Sample.load 2 0 0 100, Real 0) ]).
Proof. vm_compute. reflexivity. Qed.

(** C10 (the code at the failing input).  With [max_distance=-5] the same
    three loads are returned: the result is not empty. *)
Theorem negative_max_distance_returns_rows :
  api_opportunities Sample.glibc (Available Sample.depot) Sample.clock
    [("lat", "0"); ("lng", "0"); ("max_distance", "-5")]
  = Json (map Opportunities.columns
            [ (Sample.load 3 12 0 250, Real 0x1.4d95b423427eap+10);
              (Sample.load 1 0.5 0 100, Real 0x1.bcc79ad9ad783p+5);
              (Sample.load 2 0 0 100, Real 0) ]).
Proof. vm_compute. reflexivity. Qed.

(** The example of the specification: from (40.0, -73.0) with 200 km both
    loads are returned, the one of revenue 900 first. *)
Example specification_example :
  api_opportunities Sample.glibc (Available Sample.coast) Sample.clock
    [("lat", "40.0"); ("lng", "-73.0"); ("max_distance", "200")]
  = Json (map Opportunities.columns
            [ (Sample.load 2 41 (-74) 900, Real 0x1.176094b51367ep+7);
              (Sample.load 1 40 (-73) 500, Real 0x1.8e3p-14) ]).
Proof. vm_compute. reflexivity. Qed.

(** ** Load opportunities: the ranking *)

(** C2, as stated, fails: from (0, 0) the sample store's two loads of
    revenue 100 come back in table order, the one at 55.6 km before the one
    at 0 km. *)
Lemma ties_not_broken_by_distance :
  ~ Sorted (fun a b => Spec.ranked a b = true)
      (Opportunities.selected Sample.glibc Sample.clock
         (opportunities_params [("lat", "0"); ("lng", "0")]) Sample.depot).
Proof.
  intros H.
  assert (E : Opportunities.selected Sample.glibc Sample.clock
                (opportunities_params [("lat", "0"); ("lng", "0")])
                Sample.depot
              = [ (Sample.load 1 0.5 0 100, Real 0x1.bcc79ad9ad783p+5);
                  (Sample.load 2 0 0 100, Real 0) ])
    by (vm_compute; reflexivity).
  rewrite E in H. inversion H as [|? ? _ Hd]; subst.
  inversion Hd as [|? ? Hr]; subst.
  vm_compute in Hr. discriminate.
Qed.

(** C2, amended: the rows of the response are sorted non-increasing by
    revenue (no row is followed by one of greater revenue; NULL is the
    least revenue).  Nothing orders rows of equal revenue by distance or
    id. *)
Theorem opportunities_sorted_by_revenue (M : libm) (s : store) (now : Z)
  (q : query) :
  exists rows,
    api_opportunities M (Available s) now q = Json rows
    /\ Sorted (fun a b => value_ltb (Opportunities.revenue a)
                                    (Opportunities.revenue b) = false) rows.
Proof.
  eexists. split; [reflexivity|].
  unfold Opportunities.statement, Opportunities.selected.
  apply Sorted_map, limit_sorted.
  apply (order_by_sorted Opportunities.order_desc).
  intros x y. apply value_ltb_asym.
Qed.

(** ** The distance expression *)

(** Where the cosine expression lies in [-1, 1] the distance of the code
    is the clamped one: the two can differ only where rounding leaves the
    expression outside. *)
Lemma distance_agrees_in_range (M : libm) (lat lng oLat oLng : value)
  (x : float) :
  cosine_of_angle M lat lng lat oLat oLng = Real x ->
  (x <? -1)%float = false -> (1 <? x)%float = false ->
  distance M lat lng lat oLat oLng = Spec.distance M lat lng oLat oLng.
Proof.
  intros Hx Hlo Hhi. unfold distance, Spec.distance. rewrite Hx.
  unfold Spec.clamp. now rewrite Hlo, Hhi.
Qed.

(** C3 (the code at the failing input).  A load is at (12, 0) and the
    caller asks from (12, 0).  The cosine expression rounds to
    1.0000000000000002; the code takes [acos] of it unclamped, the
    distance is NULL and the load is missing from the response.  The
    clamped formula gives the distance 0. *)
Theorem load_at_the_callers_position_is_dropped :
  cosine_of_angle Sample.glibc (Text "12") (Text "0") (Text "12")
                  (Real 12) (Real 0) = Real 0x1.0000000000001p+0
  /\ distance Sample.glibc (Text "12") (Text "0") (Text "12")
              (Real 12) (Real 0) = Null
  /\ Spec.distance Sample.glibc (Text "12") (Text "0") (Real 12) (Real 0)
     = Real 0
  /\ api_opportunities Sample.glibc (Available Sample.doorstep) Sample.clock
       [("lat", "12"); ("lng", "0")]
     = Json [].
Proof. repeat split; vm_compute; reflexivity. Qed.









(** ** Load opportunities: missing and malformed coordinates *)

(** C4, as stated, fails: a request without [lat] is answered with status
    200 and an empty list, not with an error. *)
Lemma missing_lat_is_not_rejected :
  api_opportunities Sample.glibc (Available Sample.depot) Sample.clock
    [("lng", "0")]
  = Json [].
Proof. vm_compute. reflexivity. Qed.

(** C4, amended: when [lat] or [lng] is missing the operation does not
    fail; the missing coordinate is bound as NULL, every distance is NULL
    and the response is the empty list. *)
Theorem missing_coordinate_gives_empty_result (M : libm) (s : store)
  (now : Z) (q : query) :
  get q "lat" = Undefined \/ get q "lng" = Undefined ->
  api_opportunities M (Available s) now q = Json [].
Proof.
  intros H. unfold api_opportunities. simpl.
  rewrite opportunities_empty; [reflexivity|].
  destruct H as [-> | ->]; [now left | now right].
Qed.

Lemma missing_coordinate_gives_empty_result_witness :
  api_opportunities Sample.glibc (Available Sample.depot) Sample.clock
    [("lat", "0")]
  = Json [].
Proof.
  apply missing_coordinate_gives_empty_result. right. reflexivity.
Defined.

(** C9: when [lat] or [lng] is missing or is not a number, the operation
    succeeds with the empty list. *)
Theorem malformed_coordinate_gives_empty_result (M : libm) (s : store)
  (now : Z) (q : query) :
  missing_or_non_numeric (get q "lat")
  \/ missing_or_non_numeric (get q "lng") ->
  api_opportunities M (Available s) now q = Json [].
Proof.
  intros H. unfold api_opportunities. simpl.
  rewrite opportunities_empty; [reflexivity|].
  destruct H as [H | H]; [left | right];
    now apply missing_or_non_numeric_no_number.
Qed.

Lemma malformed_coordinate_gives_empty_result_witness :
  api_opportunities Sample.glibc (Available Sample.depot) Sample.clock
    [("lat", "12 north"); ("lng", "0")]
  = Json [].
Proof.
  apply malformed_coordinate_gives_empty_result. left. reflexivity.
Defined.

(** ** Revenue analytics *)

(** C5, as stated, fails: [period=hour] is none of the four recognized
    values, yet the query runs with the window [-1 hour] and returns the
    bucket of the shipment of the last hour. *)
Lemma unrecognized_period_runs_the_query :
  Spec.recognized "hour" = false
  /\ revenue_params [("period", "hour")] = [Text "-1 hour"]
  /\ api_analytics_revenue (Available Sample.depot) Sample.clock
       [("period", "hour")]
     = Json [ {| Revenue.timeframe := Text "2024-05";
                 Revenue.total := Real 10;
                 Revenue.shipments := 1 |} ]
  /\ Spec.recognized "fortnight" = false
  /\ api_analytics_revenue (Available Sample.depot) Sample.clock
       [("period", "fortnight")]
     = Json [].
Proof. repeat split; vm_compute; reflexivity. Qed.

Lemma revenue_empty_window (now : Z) (params : list value) (s : store) :
  datetime_now_modified now (param params 0) = Null ->
  Revenue.statement now params s = [].
Proof.
  intros H. unfold Revenue.statement, Revenue.window.
  rewrite filter_none; [reflexivity|].
  intros r _. unfold Revenue.where_clause. rewrite H.
  unfold sql_gt. simpl. reflexivity.
Qed.

(** The modifier built from a period: the number is [-1], the unit is
    what the period names. *)
Lemma modifier_of_period (period : string) :
  parse_modifier ("-1 " ++ period)
  = match unit_of_name (skip_spaces period) with
    | Some unit => Some (-1, unit)
    | None => None
    end.
Proof.
  unfold parse_modifier.
  change (split_at_space ("-1 " ++ period)) with ("-1", String " " period).
  change (numeric_of_text "-1") with (Some (Integer (-1))).
  reflexivity.
Qed.

Lemma window_start_of_period (now : Z) (period : string) :
  datetime_now_modified now (Text ("-1 " ++ period))
  = match unit_of_name (skip_spaces period) with
    | Some unit =>
        format_datetime (datetime_of_unix (apply_modifier (-1) unit now))
    | None => Null
    end.
Proof.
  change (datetime_now_modified now (Text ("-1 " ++ period)))
    with (match parse_modifier ("-1 " ++ period) with
          | Some (n, unit) =>
              format_datetime (datetime_of_unix (apply_modifier n unit now))
          | None => Null
          end).
  rewrite modifier_of_period.
  now destruct (unit_of_name (skip_spaces period)).
Qed.

(** The name of the unit ends at the first NUL character: the period
    [month%00zzz] names the month. *)
Example period_ends_at_nul (now : Z) :
  unit_of_name (skip_spaces ("month" ++ String Ascii.zero "zzz"))
  = Some Month
  /\ datetime_now_modified now
       (Text ("-1 " ++ "month" ++ String Ascii.zero "zzz"))
     = datetime_now_modified now (Text "-1 month").
Proof.
  assert (Hnul : unit_of_name
                   (skip_spaces ("month" ++ String Ascii.zero "zzz"))
                 = Some Month) by reflexivity.
  assert (Hmonth : unit_of_name (skip_spaces "month") = Some Month)
    by reflexivity.
  split; [exact Hnul|].
  change (Text "-1 month") with (Text ("-1 " ++ "month")).
  rewrite !window_start_of_period, Hnul, Hmonth. reflexivity.
Qed.

(** C5, amended: whatever the period, recognized or not, the handler
    validates nothing and reports no error of its own: it binds the text
    ["-1 " ++ period] and runs the statement.  When the period names a
    unit SQLite knows, the window starts one such unit before now; for
    every other value the result is the empty list.  The name is read as
    SQLite reads it: blanks in front of it are skipped, it ends at the
    first NUL character, letter case is ignored and a plural [s] is
    dropped. *)
Theorem period_is_never_validated (s : store) (now : Z) (q : query) :
  exists rows,
    api_analytics_revenue (Available s) now q = Json rows
    /\ rows = Revenue.statement now [Text ("-1 " ++ period_of q)] s
    /\ match unit_of_name (skip_spaces (period_of q)) with
       | Some unit =>
           datetime_now_modified now (Text ("-1 " ++ period_of q))
           = format_datetime
               (datetime_of_unix (apply_modifier (-1) unit now))
       | None => rows = []
       end.
Proof.
  eexists. split; [reflexivity|]. split; [reflexivity|].
  pose proof (window_start_of_period now (period_of q)) as H.
  destruct (unit_of_name (skip_spaces (period_of q))) as [unit|].
  - exact H.
  - apply revenue_empty_window. exact H.
Qed.

(** C7, as stated, fails, twice.  [week] is one of the four periods, two
    shipments of the sample store are less than a week old, and the result
    is empty, because SQLite has no unit [week].  And the label is the
    year and month of the timestamp whatever the period: with [day] the
    two shipments of the last 24 hours, made on 2024-05-14 and on
    2024-05-15, share the one bucket ["2024-05"]. *)
Lemma week_is_empty_and_day_buckets_are_months :
  Spec.recognized "week" = true
  /\ List.length (filter (Spec.in_last_week Sample.clock)
                         (shipments Sample.depot)) = 2%nat
  /\ datetime_now_modified Sample.clock (Text "-1 week") = Null
  /\ api_analytics_revenue (Available Sample.depot) Sample.clock
       [("period", "week")]
     = Json []
  /\ Spec.recognized "day" = true
  /\ api_analytics_revenue (Available Sample.depot) Sample.clock
       [("period", "day")]
     = Json [ {| Revenue.timeframe := Text "2024-05";
                 Revenue.total := Real 12.5;
                 Revenue.shipments := 2 |} ].
Proof. repeat split; vm_compute; reflexivity. Qed.

(** The result of the statement against its window, for any bound
    modifier. *)
Lemma revenue_statement_partition (now : Z) (params : list value)
  (s : store) :
  let window := Revenue.window now params s in
  let rows := Revenue.statement now params s in
  Revenue.total_shipments rows = Z.of_nat (List.length window)
  /\ NoDup (map Revenue.timeframe rows)
  /\ Forall (fun b =>
       let members :=
         filter (fun r => value_eqb (strftime_Ym now (Shipment.timestamp r))
                                    (Revenue.timeframe b)) window in
       members <> []
       /\ Revenue.total b = sql_sum (map Shipment.revenue members)
       /\ Revenue.shipments b = Z.of_nat (List.length members)) rows
  /\ Sorted (fun a b => value_ltb (Revenue.timeframe b)
                                  (Revenue.timeframe a) = false) rows.
Proof.
  intros window rows. unfold rows, Revenue.statement. fold window.
  pose proof (group_by_spec (Revenue.timeframe_of now)
                (fun r => strftime_Ym_label now (Shipment.timestamp r))
                window) as (Hnd & _ & Hall).
  repeat split.
  - now rewrite total_shipments_order_by, total_shipments_group_by.
  - apply order_by_NoDup_map. rewrite map_map. simpl.
    erewrite map_ext; [exact Hnd | reflexivity].
  - rewrite Forall_forall. intros b Hb.
    apply order_by_In, in_map_iff in Hb. destruct Hb as (g & <- & Hg).
    rewrite Forall_forall in Hall. destruct (Hall g Hg) as (_ & Hne & Hrows).
    unfold Revenue.timeframe_of in Hrows. simpl.
    rewrite <- Hrows. repeat split; auto.
  - apply (order_by_sorted Revenue.order_asc).
    intros x y. apply value_ltb_asym.
Qed.

Lemma period_window_start (now : Z) (q : query) (unit : time_unit) :
  In (period_of q, unit) [("day", Day); ("month", Month); ("year", Year)] ->
  datetime_now_modified now (param (revenue_params q) 0)
  = format_datetime (datetime_of_unix (apply_modifier (-1) unit now)).
Proof.
  unfold revenue_params, param. simpl.
  intros [[= <- <-] | [[= <- <-] | [[= <- <-] | []]]]; reflexivity.
Qed.

(** C7, amended: for the periods [day], [month] and [year] the window
    holds the shipments with [timestamp > now - 1 period], compared as
    SQLite compares the stored value with the text of that moment; the
    rows are grouped by the year-and-month label of the timestamp,
    whatever the period.  The buckets partition the window: their labels
    are distinct, the [shipments] counts add up to the number of rows of
    the window, and each bucket counts and sums (with [SUM], in doubles)
    exactly the rows of the window that carry its label.  The buckets
    come in ascending order of [timeframe]. *)
Theorem revenue_buckets_partition_the_window (s : store) (now : Z)
  (q : query) (unit : time_unit) :
  In (period_of q, unit) [("day", Day); ("month", Month); ("year", Year)] ->
  let start :=
    format_datetime (datetime_of_unix (apply_modifier (-1) unit now)) in
  let window :=
    filter (fun r => where_true (sql_gt (Shipment.timestamp r) start))
           (shipments s) in
  exists rows,
    api_analytics_revenue (Available s) now q = Json rows
    /\ Revenue.total_shipments rows = Z.of_nat (List.length window)
    /\ NoDup (map Revenue.timeframe rows)
    /\ Forall (fun b =>
         let members :=
           filter (fun r => value_eqb (strftime_Ym now (Shipment.timestamp r))
                                      (Revenue.timeframe b)) window in
         members <> []
         /\ Revenue.total b = sql_sum (map Shipment.revenue members)
         /\ Revenue.shipments b = Z.of_nat (List.length members)) rows
    /\ Sorted (fun a b => value_ltb (Revenue.timeframe b)
                                    (Revenue.timeframe a) = false) rows.
Proof.
  intros Hperiod start window. eexists. split; [reflexivity|].
  pose proof (revenue_statement_partition now (revenue_params q) s) as H.
  unfold Revenue.window, Revenue.where_clause in H.
  rewrite (period_window_start now q unit Hperiod) in H.
  exact H.
Qed.

Lemma revenue_buckets_partition_the_window_witness :
  exists rows,
    api_analytics_revenue (Available Sample.depot) Sample.clock
      [("period", "month")] = Json rows
    /\ Revenue.total_shipments rows = 3.
Proof.
  destruct (revenue_buckets_partition_the_window Sample.depot Sample.clock
              [("period", "month")] Month)
    as (rows & Hrows & Htotal & _).
  - right. left. reflexivity.
  - exists rows. split; [exact Hrows|]. rewrite Htotal. reflexivity.
Defined.

(** ** Real-time truck tracking *)

(** C6, as stated, fails: a request carrying [windowMinutes=1] is answered
    with the trucks seen 2 and 3 minutes ago, none of which is within one
    minute. *)
Lemma window_parameter_is_ignored :
  api_gps_trucks (Available Sample.depot) Sample.clock
    [("windowMinutes", "1")]
  = Json (map (Trucks.columns Sample.clock)
            [ Sample.truck 3 "B-TR 103" "2024-05-15 09:58:00";
              Sample.truck 1 "B-TR 101" "2024-05-15 09:57:00" ])
  /\ Spec.fresh Sample.clock 1
       (Sample.truck 3 "B-TR 103" "2024-05-15 09:58:00") = false
  /\ Spec.fresh Sample.clock 1
       (Sample.truck 1 "B-TR 101" "2024-05-15 09:57:00") = false.
Proof. repeat split; vm_compute; reflexivity. Qed.

(** C6, amended: the operation takes no window parameter (the request is
    not read); the window is fixed at five minutes.  Every row returned
    has [last_updated > datetime('now', '-5 minutes')] as SQLite compares
    them, and the rows are sorted non-increasing by [last_updated]. *)
Theorem trucks_window_is_five_minutes (s : store) (now : Z) (q : query) :
  api_gps_trucks (Available s) now q
  = Json (map (Trucks.columns now) (Trucks.selected now s))
  /\ api_gps_trucks (Available s) now q = api_gps_trucks (Available s) now []
  /\ Forall (fun t =>
       sql_gt (Truck.last_updated t)
              (format_datetime (datetime_of_unix (now - 300))) = Some true)
       (Trucks.selected now s)
  /\ Sorted (fun a b => value_ltb (Truck.last_updated a)
                                  (Truck.last_updated b) = false)
       (Trucks.selected now s).
Proof.
  repeat split.
  - rewrite Forall_forall. intros t Ht.
    apply order_by_In, filter_In in Ht. destruct Ht as [_ Ht].
    unfold Trucks.where_clause in Ht.
    rewrite five_minutes_ago in Ht. now apply where_true_spec.
  - apply (order_by_sorted Trucks.order_desc).
    intros x y. apply value_ltb_asym.
Qed.

(* ================================================================== *)
(** * Further facts about doubles *)
(* ================================================================== *)

Lemma Prim2SF_not_nan (x : float) :
  is_nan x = false -> Prim2SF x <> S754_nan.
Proof.
  intros H. unfold Prim2SF. rewrite H.
  destruct (is_zero x); [discriminate|].
  destruct (is_infinity x); [discriminate|].
  destruct (Z.frexp x) as [r e].
  destruct (shr_fexp _ _ _ _ _) as [mrs e'].
  destruct (shr_m mrs); discriminate.
Qed.

(** On doubles other than NaN, "not less than" is transitive. *)
Lemma SFcompare_not_lt_trans (a b c : spec_float) :
  a <> S754_nan -> b <> S754_nan -> c <> S754_nan ->
  SFcompare a b <> Some Lt -> SFcompare b c <> Some Lt ->
  SFcompare a c <> Some Lt.
Proof.
  intros Ha Hb Hc.
  destruct a as [sa|sa| |sa ma ea]; try congruence;
  destruct b as [sb|sb| |sb mb eb]; try congruence;
  destruct c as [sc|sc| |sc mc ec]; try congruence;
  clear Ha Hb Hc; simpl;
  try (destruct sa; simpl; congruence);
  try (destruct sb; simpl; congruence);
  try (destruct sc; simpl; congruence);
  try (destruct sa, sb; simpl; congruence);
  try (destruct sa, sc; simpl; congruence);
  try (destruct sb, sc; simpl; congruence);
  try (destruct sa, sb, sc; simpl; congruence).
  change (Pos.compare_cont Eq ma mb) with (Pos.compare ma mb).
  change (Pos.compare_cont Eq mb mc) with (Pos.compare mb mc).
  change (Pos.compare_cont Eq ma mc) with (Pos.compare ma mc).
  destruct sa, sb, sc; try congruence;
    destruct (Z.compare_spec ea eb), (Z.compare_spec eb ec),
             (Z.compare_spec ea ec); try congruence; try lia;
    destruct (Pos.compare_spec ma mb), (Pos.compare_spec mb mc),
             (Pos.compare_spec ma mc); simpl; try congruence; try lia.
Qed.

Lemma float_compare_lt (x y : float) :
  float_compare x y = Lt <-> SFcompare (Prim2SF x) (Prim2SF y) = Some Lt.
Proof.
  unfold float_compare. rewrite compare_spec.
  destruct (SFcompare (Prim2SF x) (Prim2SF y)) as [[ | | ]|]; simpl;
    split; congruence.
Qed.

Lemma float_compare_not_lt_trans (x y z : float) :
  is_nan x = false -> is_nan y = false -> is_nan z = false ->
  float_compare x y <> Lt -> float_compare y z <> Lt ->
  float_compare x z <> Lt.
Proof.
  intros Hx Hy Hz. rewrite !float_compare_lt.
  apply SFcompare_not_lt_trans; now apply Prim2SF_not_nan.
Qed.

(* ================================================================== *)
(** * Further facts about the order of values *)
(* ================================================================== *)

Lemma string_compare_not_lt_trans (s t u : string) :
  String.compare s t <> Lt -> String.compare t u <> Lt ->
  String.compare s u <> Lt.
Proof.
  intros Hst Htu Hsu.
  apply OrderedTypeEx.String_as_OT.cmp_lt in Hsu.
  destruct (String.compare s t) eqn:Est; [| congruence |].
  - apply String.compare_eq_iff in Est. subst t.
    apply Htu. now apply OrderedTypeEx.String_as_OT.cmp_lt.
  - rewrite String.compare_antisym in Est.
    destruct (String.compare t s) eqn:Ets; try discriminate.
    apply OrderedTypeEx.String_as_OT.cmp_lt in Ets.
    apply Htu. apply OrderedTypeEx.String_as_OT.cmp_lt.
    eapply OrderedTypeEx.String_as_OT.lt_trans; eassumption.
Qed.

(** On the values of a [REAL] column, "not less than" is transitive. *)
Lemma value_not_lt_trans (a b c : value) :
  real_column_value a = true -> real_column_value b = true ->
  real_column_value c = true ->
  value_ltb a b = false -> value_ltb b c = false -> value_ltb a c = false.
Proof.
  unfold value_ltb.
  destruct a as [|i|x|s|s], b as [|j|y|t|t], c as [|k|z|u|u]; simpl;
    try discriminate; try reflexivity; intros Ha Hb Hc Hab Hbc.
  - apply negb_true_iff in Ha, Hb, Hc.
    pose proof (float_compare_not_lt_trans x y z Ha Hb Hc) as H.
    destruct (float_compare x y); try discriminate;
      destruct (float_compare y z); try discriminate;
      destruct (float_compare x z); try reflexivity;
      exfalso; apply H; congruence.
  - pose proof (string_compare_not_lt_trans s t u) as H.
    destruct (String.compare s t); try discriminate;
      destruct (String.compare t u); try discriminate;
      destruct (String.compare s u); try reflexivity;
      exfalso; apply H; congruence.
  - pose proof (string_compare_not_lt_trans s t u) as H.
    destruct (String.compare s t); try discriminate;
      destruct (String.compare t u); try discriminate;
      destruct (String.compare s u); try reflexivity;
      exfalso; apply H; congruence.
Qed.

(* ================================================================== *)
(** * Further facts about [ORDER BY] and [LIMIT] *)
(* ================================================================== *)

Section RankingFacts.
Context {A : Type}.
Variable before : A -> A -> bool.

Lemma insert_row_permutation (x : A) (l : list A) :
  Permutation.Permutation (insert_row before x l) (x :: l).
Proof.
  induction l as [|y l IH]; simpl; [apply Permutation.Permutation_refl|].
  destruct (before y x); [|apply Permutation.Permutation_refl].
  eapply Permutation.Permutation_trans;
    [apply Permutation.perm_skip, IH | apply Permutation.perm_swap].
Qed.

Lemma order_by_permutation (l : list A) :
  Permutation.Permutation (order_by before l) l.
Proof.
  induction l as [|x l IH]; simpl; [constructor|].
  eapply Permutation.Permutation_trans;
    [apply insert_row_permutation | now apply Permutation.perm_skip].
Qed.

(** Rows among which "does not have to come after" is transitive. *)
Variable comparable : A -> Prop.
Hypothesis before_trans : forall x y z,
  comparable x -> comparable y -> comparable z ->
  before y x = false -> before z y = false -> before z x = false.

Lemma sorted_head_first (x : A) (l : list A) :
  Forall comparable (x :: l) ->
  Sorted (fun a b => before b a = false) (x :: l) ->
  Forall (fun y => before y x = false) l.
Proof.
  revert x. induction l as [|y l IH]; intros x Hc Hs; [constructor|].
  inversion Hs as [|? ? Hs' Hd]; subst. inversion Hd as [|? ? Hxy]; subst.
  inversion Hc as [|? ? Hx Hc']; subst.
  constructor; [exact Hxy|].
  specialize (IH y Hc' Hs'). rewrite Forall_forall in IH |- *.
  intros z Hz. inversion Hc' as [|? ? Hy Hl]; subst.
  rewrite Forall_forall in Hl.
  apply (before_trans x y z); auto.
Qed.

(** In a sorted list no row after position [n] has to come before a row
    in front of position [n]. *)
Lemma sorted_split (n : nat) (l : list A) (x y : A) :
  Forall comparable l ->
  Sorted (fun a b => before b a = false) l ->
  In x (firstn n l) -> In y (skipn n l) -> before y x = false.
Proof.
  revert n. induction l as [|z l IH]; intros n Hc Hs Hx Hy.
  - destruct n; contradiction.
  - destruct n as [|n]; [contradiction|]. simpl in Hx, Hy.
    destruct Hx as [<- | Hx].
    + pose proof (sorted_head_first z l Hc Hs) as H.
      rewrite Forall_forall in H. apply H.
      rewrite <- (firstn_skipn n l). apply in_or_app. now right.
    + inversion Hc; inversion Hs; subst. now apply (IH n).
Qed.

End RankingFacts.

(* ================================================================== *)
(** * Further properties of the three statements *)
(* ================================================================== *)

Lemma format_datetime_text (t : datetime) :
  format_datetime t = Null \/ exists s, format_datetime t = Text s.
Proof.
  unfold format_datetime. destruct (printable t); [right; eauto | now left].
Qed.

Lemma datetime_now_modified_text (now : Z) (modifier : value) :
  datetime_now_modified now modifier = Null
  \/ exists s, datetime_now_modified now modifier = Text s.
Proof.
  unfold datetime_now_modified.
  destruct modifier; try (now left).
  destruct (parse_modifier s) as [[n u]|]; [|now left].
  apply format_datetime_text.
Qed.

(** Nothing but a text or a blob is greater than a text: numbers sort
    before every text, and a comparison with NULL is NULL. *)
Lemma greater_than_text (v bound : value) :
  bound = Null \/ (exists s, bound = Text s) ->
  sql_gt v bound = Some true -> is_number v = false /\ v <> Null.
Proof.
  intros [-> | [s ->]] H; destruct v; try discriminate; simpl in *;
    split; congruence.
Qed.

Lemma distance_null_origin (M : libm) (p1 p2 p3 origin_lat origin_lng : value) :
  numeric_double origin_lat = None \/ numeric_double origin_lng = None ->
  distance M p1 p2 p3 origin_lat origin_lng = Null.
Proof.
  intros H. unfold distance, cosine_of_angle.
  assert (Hc : sql_add
    (sql_mul
       (sql_mul (math1 (cos M) (radians p1))
                (math1 (cos M) (radians origin_lat)))
       (math1 (cos M) (sql_sub (radians origin_lng) (radians p2))))
    (sql_mul (math1 (sin M) (radians p3))
             (math1 (sin M) (radians origin_lat))) = Null).
  { destruct H as [H | H].
    - rewrite (radians_no_number _ H). unfold math1 at 2. simpl.
      unfold sql_mul at 2. rewrite real_arith_null_r.
      unfold sql_mul at 1. rewrite real_arith_null_l.
      unfold sql_add. now rewrite real_arith_null_l.
    - rewrite (radians_no_number _ H).
      unfold sql_sub. rewrite real_arith_null_l.
      unfold math1 at 3. simpl.
      unfold sql_mul at 1. rewrite real_arith_null_r.
      unfold sql_add. now rewrite real_arith_null_l. }
  rewrite Hc. reflexivity.
Qed.

Lemma distance_real_not_nan (M : libm) (p1 p2 p3 la lo : value) (d : float) :
  distance M p1 p2 p3 la lo = Real d -> is_nan d = false.
Proof.
  unfold distance, sql_mul, real_arith.
  destruct (numeric_double (Integer 6371)); [|discriminate].
  destruct (numeric_double _); [|discriminate].
  unfold real_result. destruct (is_nan _) eqn:E; [discriminate|].
  now intros [= <-].
Qed.

Lemma opportunities_selected_origin (M : libm) (now : Z)
  (params : list value) (s : store) (c : Opportunities.candidate) :
  In c (Opportunities.selected M now params s) ->
  exists o, In o (opportunities s)
            /\ c = Opportunities.with_distance M params o.
Proof.
  intros H. apply limit_In, order_by_In, filter_In in H.
  destruct H as [H _]. apply in_map_iff in H.
  destruct H as [o [<- Ho]]. eauto.
Qed.

(** With a [max_distance] in the query string, a row passes the [WHERE]
    clause exactly when its distance is a number and it has not expired. *)
Lemma where_clause_text_bound (M : libm) (now : Z) (q : query) (m : string)
  (o : Opportunity.row) :
  Opportunities.where_clause now
    (opportunities_params (("max_distance", m) :: q))
    (Opportunities.with_distance M
       (opportunities_params (("max_distance", m) :: q)) o)
  = (let c := Opportunities.with_distance M (opportunities_params q) o in
     is_real (snd c)
     && where_true (sql_gt (Opportunity.expiry (fst c)) (datetime_now now))).
Proof.
  unfold Opportunities.where_clause, Opportunities.with_distance,
    opportunities_params, param. simpl.
  destruct (distance_null_or_real M (bind (get q "lat")) (bind (get q "lng"))
              (bind (get q "lat")) (Opportunity.origin_lat o)
              (Opportunity.origin_lng o)) as [-> | [r ->]]; simpl.
  - destruct (sql_gt _ _) as [[|]|]; reflexivity.
  - destruct (sql_gt _ _) as [[|]|]; reflexivity.
Qed.

Lemma filter_map_ext {A B : Type} (f g : A -> B) (p p' : B -> bool)
  (l : list A) :
  (forall x, f x = g x) -> (forall x, p (f x) = p' (g x)) ->
  filter p (map f l) = filter p' (map g l).
Proof.
  intros Hf Hp. induction l as [|x l IH]; simpl; [reflexivity|].
  rewrite Hp, Hf, IH. reflexivity.
Qed.

(* ------------------------------------------------------------------ *)
(** ** [String.prototype.split] *)

Lemma split_not_nil (sep : ascii) (s : string) : Config.split sep s <> [].
Proof.
  destruct s as [|c s]; simpl; [discriminate|].
  destruct (Ascii.eqb c sep); [discriminate|].
  destruct (Config.split sep s); discriminate.
Qed.

Lemma concat_cons (sep : ascii) (c : ascii) (piece : string)
  (pieces : list string) :
  String.concat (String sep "") (String c piece :: pieces)
  = String c (String.concat (String sep "") (piece :: pieces)).
Proof. simpl. destruct pieces; reflexivity. Qed.

Lemma concat_split (sep : ascii) (s : string) :
  String.concat (String sep "") (Config.split sep s) = s.
Proof.
  induction s as [|c s IH]; [reflexivity|].
  cbn [Config.split]. destruct (Ascii.eqb c sep) eqn:E.
  - apply Ascii.eqb_eq in E. subst c.
    pose proof (split_not_nil sep s) as Hn.
    destruct (Config.split sep s) as [|p ps]; [congruence|].
    cbn [String.concat]. rewrite <- IH. reflexivity.
  - pose proof (split_not_nil sep s) as Hn.
    destruct (Config.split sep s) as [|p ps]; [congruence|].
    rewrite concat_cons, IH. reflexivity.
Qed.

Lemma split_pieces (sep : ascii) (s : string) :
  Forall (fun p => occurs sep p = false) (Config.split sep s).
Proof.
  induction s as [|c s IH]; simpl; [repeat constructor|].
  destruct (Ascii.eqb c sep) eqn:E.
  - constructor; [reflexivity | exact IH].
  - destruct (Config.split sep s) as [|p ps].
    + repeat constructor. simpl. now rewrite E.
    + inversion IH; subst. constructor; [|assumption].
      simpl. rewrite E. assumption.
Qed.

Lemma split_concat (sep : ascii) (l : list string) :
  l <> [] -> Forall (fun p => occurs sep p = false) l ->
  Config.split sep (String.concat (String sep "") l) = l.
Proof.
  induction l as [|p l IH]; [congruence|]. intros _ H.
  inversion H as [|? ? Hp Hl]; subst. clear H.
  destruct l as [|p' l].
  - clear IH Hl. cbn [String.concat].
    induction p as [|c p IHp]; [reflexivity|].
    simpl in Hp. apply orb_false_iff in Hp. destruct Hp as [E Hp].
    cbn [Config.split]. rewrite E, (IHp Hp). reflexivity.
  - specialize (IH ltac:(discriminate) Hl).
    change (String.concat (String sep "") (p :: p' :: l))
      with (p ++ String sep (String.concat (String sep "") (p' :: l))).
    induction p as [|c p IHp].
    + cbn [append Config.split]. rewrite Ascii.eqb_refl, IH. reflexivity.
    + simpl in Hp. apply orb_false_iff in Hp. destruct Hp as [E Hp].
      cbn [append Config.split]. rewrite E, (IHp Hp). reflexivity.
Qed.

(* ================================================================== *)
(** * The response of [/api/opportunities] *)
(* ================================================================== *)

(** X1: the response of [/api/opportunities] never has more than 50 rows
    ([LIMIT 50]), whatever the store and the request. *)
Theorem opportunities_response_has_at_most_50_rows (M : libm) (s : store)
  (now : Z) (q : query) :
  exists rows,
    api_opportunities M (Available s) now q = Json rows
    /\ (List.length rows <= 50)%nat.
Proof.
  eexists. split; [reflexivity|]. apply opportunities_at_most_50.
Qed.

(** X2: every row of the response of [/api/opportunities] is a row of the
    table: its [distance] is the distance of that row from the [lat] and
    [lng] of the request, a double that is not NaN; the coordinates of
    the request and of the row are all numbers (a row whose [origin_lat]
    or [origin_lng] is NULL or text that is no number is never
    returned); and its [expiry] is greater than [datetime('now')]. *)
Theorem returned_opportunity_is_located_and_open (M : libm) (s : store)
  (now : Z) (q : query) :
  Forall (fun j => exists o d,
       In o (opportunities s)
       /\ j = Opportunities.columns (o, Real d)
       /\ distance M (bind (get q "lat")) (bind (get q "lng"))
            (bind (get q "lat"))
            (Opportunity.origin_lat o) (Opportunity.origin_lng o) = Real d
       /\ is_nan d = false
       /\ numeric_double (bind (get q "lat")) <> None
       /\ numeric_double (bind (get q "lng")) <> None
       /\ numeric_double (Opportunity.origin_lat o) <> None
       /\ numeric_double (Opportunity.origin_lng o) <> None
       /\ sql_gt (Opportunity.expiry o) (datetime_now now) = Some true)
    (Opportunities.statement M now (opportunities_params q) s).
Proof.
  apply Forall_forall. intros j Hj.
  unfold Opportunities.statement in Hj. apply in_map_iff in Hj.
  destruct Hj as [c [<- Hc]].
  destruct (opportunities_selected M now _ s c Hc) as [Hlt Hgt].
  destruct (opportunities_selected_origin M now _ s c Hc) as [o [Ho ->]].
  unfold Opportunities.with_distance in *. simpl in Hlt, Hgt.
  change (param (opportunities_params q) 0) with (bind (get q "lat")) in *.
  change (param (opportunities_params q) 1) with (bind (get q "lng")) in *.
  change (param (opportunities_params q) 2) with (bind (get q "lat")) in *.
  destruct (distance_null_or_real M (bind (get q "lat")) (bind (get q "lng"))
              (bind (get q "lat")) (Opportunity.origin_lat o)
              (Opportunity.origin_lng o)) as [E | [d E]].
  - rewrite E in Hlt. discriminate.
  - exists o, d. rewrite E.
    repeat split; try assumption.
    + now apply distance_real_not_nan in E.
    + intros H. rewrite distance_null in E; [discriminate | now left].
    + intros H. rewrite distance_null in E; [discriminate | now right].
    + intros H. rewrite distance_null_origin in E; [discriminate | now left].
    + intros H. rewrite distance_null_origin in E; [discriminate | now right].
Qed.

(** X3: when the query string carries a [max_distance], its value is not
    used: the bound is text, every distance that is a number is below
    it, and the response is the 50 best paid of all rows that have a
    distance and have not expired, at whatever distance. *)
Theorem supplied_max_distance_only_drops_null_distances (M : libm)
  (s : store) (now : Z) (q : query) (m : string) :
  api_opportunities M (Available s) now (("max_distance", m) :: q)
  = Json (map Opportunities.columns
      (limit 50
        (order_by Opportunities.order_desc
          (filter
            (fun c =>
               is_real (snd c)
               && where_true (sql_gt (Opportunity.expiry (fst c))
                                     (datetime_now now)))
            (map (Opportunities.with_distance M (opportunities_params q))
                 (opportunities s)))))).
Proof.
  unfold api_opportunities, db_all, respond, Opportunities.statement,
    Opportunities.selected, Opportunities.eligible.
  do 4 f_equal.
  apply filter_map_ext.
  - intros o. reflexivity.
  - intros o. apply where_clause_text_bound.
Qed.

(* ================================================================== *)
(** * Timestamps stored as numbers *)
(* ================================================================== *)

(** X4: a row whose time column ([last_updated], [expiry], [timestamp])
    holds a number, such as a Unix time, or NULL is never selected by
    any of the three statements, whatever the clock: the column is
    compared with the text that [datetime] returns, and every number
    sorts before every text. *)
Theorem numeric_timestamps_are_never_selected (M : libm) (s : store)
  (now : Z) (q : query) :
  Forall (fun t => is_number (Truck.last_updated t) = false
                   /\ Truck.last_updated t <> Null)
         (Trucks.selected now s)
  /\ Forall (fun c => is_number (Opportunity.expiry (fst c)) = false
                      /\ Opportunity.expiry (fst c) <> Null)
            (Opportunities.selected M now (opportunities_params q) s)
  /\ Forall (fun r => is_number (Shipment.timestamp r) = false
                      /\ Shipment.timestamp r <> Null)
            (Revenue.window now (revenue_params q) s).
Proof.
  repeat split; apply Forall_forall.
  - intros t Ht. unfold Trucks.selected in Ht.
    apply order_by_In, filter_In in Ht. destruct Ht as [_ Ht].
    apply where_true_spec in Ht.
    eapply greater_than_text; [|exact Ht].
    apply datetime_now_modified_text.
  - intros c Hc. apply opportunities_selected in Hc. destruct Hc as [_ Hc].
    eapply greater_than_text; [|exact Hc].
    apply format_datetime_text.
  - intros r Hr. unfold Revenue.window in Hr.
    apply filter_In in Hr. destruct Hr as [_ Hr].
    apply where_true_spec in Hr.
    eapply greater_than_text; [|exact Hr].
    apply datetime_now_modified_text.
Qed.

(* ================================================================== *)
(** * The response of [/api/gps/trucks] *)
(* ================================================================== *)

(** X5: the response of [/api/gps/trucks] has one row for each truck that
    passes the [WHERE] clause, no more and no fewer: there is no limit,
    and sorting neither drops nor repeats a row. *)
Theorem trucks_response_is_every_recent_truck (s : store) (now : Z)
  (q : query) :
  exists rows,
    api_gps_trucks (Available s) now q = Json rows
    /\ Permutation.Permutation rows
         (map (Trucks.columns now)
              (filter (Trucks.where_clause now) (trucks s)))
    /\ List.length rows
       = List.length (filter (Trucks.where_clause now) (trucks s)).
Proof.
  eexists. split; [reflexivity|].
  unfold Trucks.statement, Trucks.selected. split.
  - apply Permutation.Permutation_map, order_by_permutation.
  - now rewrite length_map, order_by_length.
Qed.

(* ================================================================== *)
(** * The [origin] option of [cors] *)
(* ================================================================== *)

(** X6: when [CORS_ORIGINS] is set, the [origin] option is the array of
    the pieces of its value between the commas: the array is never empty
    (the empty value gives one empty piece, not ['*']), no piece contains
    a comma, the pieces joined with commas give the value back, and
    they are the only such list. *)
Theorem cors_origins_are_the_comma_separated_pieces (v : string) :
  exists l,
    Config.cors_origin (Some v) = Config.OriginList l
    /\ l <> []
    /\ Forall (fun p => occurs "," p = false) l
    /\ String.concat "," l = v
    /\ (forall l', l' <> [] -> Forall (fun p => occurs "," p = false) l' ->
                   String.concat "," l' = v -> l' = l).
Proof.
  exists (Config.split "," v). split; [reflexivity|].
  split; [apply split_not_nil|].
  split; [apply split_pieces|].
  split; [apply concat_split|].
  intros l' Hn Hp <-. symmetry. now apply split_concat.
Qed.

(* ================================================================== *)
(** * The default bound on the distance *)
(* ================================================================== *)

Lemma digits2_pos_lower (m : positive) :
  2 ^ (Z.pos (digits2_pos m) - 1) <= Z.pos m.
Proof.
  induction m as [m IH | m IH |]; simpl digits2_pos.
  - rewrite Pos2Z.inj_succ.
    replace (Z.succ (Z.pos (digits2_pos m)) - 1)
      with (Z.succ (Z.pos (digits2_pos m) - 1)) by lia.
    rewrite Z.pow_succ_r by lia. lia.
  - rewrite Pos2Z.inj_succ.
    replace (Z.succ (Z.pos (digits2_pos m)) - 1)
      with (Z.succ (Z.pos (digits2_pos m) - 1)) by lia.
    rewrite Z.pow_succ_r by lia. lia.
  - simpl. lia.
Qed.

Lemma compare_cont_lt (m c : positive) :
  Z.pos m < Z.pos c -> Pos.compare_cont Eq m c = Lt.
Proof. intros C. exact C. Qed.

(** A finite double with an exponent above the least one has a mantissa
    of 53 bits. *)
Lemma normal_mantissa (s : bool) (m : positive) (e : Z) (x : float) :
  Prim2SF x = S754_finite s m e -> -1074 < e -> 2 ^ 52 <= Z.pos m.
Proof.
  intros E He. pose proof (Prim2SF_valid x) as V. rewrite E in V.
  unfold valid_binary, bounded, canonical_mantissa in V.
  apply andb_true_iff in V. destruct V as [V _].
  apply Z.eqb_eq in V. unfold fexp, emin, emax, prec in V.
  pose proof (digits2_pos_lower m) as L.
  assert (D : Z.pos (digits2_pos m) = 53) by lia.
  rewrite D in L. exact L.
Qed.

(** The comparison of a double with the integer 100, which is exact,
    agrees with the comparison of doubles. *)
Lemma real_below_100 (d : float) :
  value_ltb (Real d) (Integer 100) = true -> (d <? 100)%float = true.
Proof.
  unfold value_ltb, value_compare, int_float_compare.
  rewrite ltb_spec. change (Prim2SF 100) with
    (S754_finite false 7036874417766400 (-46)).
  destruct (Prim2SF d) as [sd | sd | | sd m e] eqn:E.
  - intros _. destruct sd; reflexivity.
  - destruct sd; [reflexivity | cbn; discriminate].
  - cbn; discriminate.
  - destruct sd; [reflexivity|].
    destruct (0 <=? e) eqn:He.
    + apply Z.leb_le in He.
      pose proof (normal_mantissa false m e d E ltac:(lia)) as Hm.
      destruct (100 ?= Z.pos m * 2 ^ e) eqn:C; cbn [CompOpp];
        try (intros X; discriminate X).
      apply Z.compare_gt_iff in C.
      assert (1 <= 2 ^ e) by (apply (Z.pow_le_mono_r 2 0 e); lia).
      assert (2 ^ 52 <= Z.pos m * 2 ^ e) by nia.
      assert (100 < 2 ^ 52) by reflexivity. lia.
    + apply Z.leb_gt in He.
      destruct (100 * 2 ^ (- e) ?= Z.pos m) eqn:C; cbn [CompOpp];
        try (intros X; discriminate X).
      apply Z.compare_gt_iff in C. intros _.
      unfold SFltb, SFcompare.
      destruct (e ?= -46) eqn:Ce.
      * apply Z.compare_eq_iff in Ce. subst e.
        change (100 * 2 ^ (- -46)) with 7036874417766400 in C.
        rewrite (compare_cont_lt m _ C). reflexivity.
      * reflexivity.
      * exfalso. apply Z.compare_gt_iff in Ce.
        pose proof (normal_mantissa false m e d E ltac:(lia)) as Hm.
        assert (2 ^ (- e) <= 2 ^ 45) by (apply Z.pow_le_mono_r; lia).
        assert (100 * 2 ^ 45 < 2 ^ 52) by reflexivity. lia.
Qed.

Lemma digits2_pos_upper (m : positive) :
  Z.pos m < 2 ^ Z.pos (digits2_pos m).
Proof.
  induction m as [m IH | m IH |]; simpl digits2_pos.
  - rewrite Pos2Z.inj_succ, Z.pow_succ_r by lia. lia.
  - rewrite Pos2Z.inj_succ, Z.pow_succ_r by lia. lia.
  - reflexivity.
Qed.

(** The mantissa of a finite double has at most 53 bits. *)
Lemma mantissa_bound (s : bool) (m : positive) (e : Z) (x : float) :
  Prim2SF x = S754_finite s m e -> Z.pos m < 2 ^ 53.
Proof.
  intros E. pose proof (Prim2SF_valid x) as V. rewrite E in V.
  unfold valid_binary, bounded, canonical_mantissa in V.
  apply andb_true_iff in V. destruct V as [V _].
  apply Z.eqb_eq in V. unfold fexp, emin, emax, prec in V.
  pose proof (digits2_pos_upper m) as U.
  assert (D : Z.pos (digits2_pos m) <= 53) by lia.
  assert (2 ^ Z.pos (digits2_pos m) <= 2 ^ 53)
    by (apply Z.pow_le_mono_r; lia).
  lia.
Qed.

Lemma real_below_100_conv (d : float) :
  (d <? 100)%float = true -> value_ltb (Real d) (Integer 100) = true.
Proof.
  unfold value_ltb, value_compare, int_float_compare.
  rewrite ltb_spec. change (Prim2SF 100) with
    (S754_finite false 7036874417766400 (-46)).
  destruct (Prim2SF d) as [sd | sd | | sd m e] eqn:E.
  - intros _. reflexivity.
  - destruct sd; [reflexivity | cbn; discriminate].
  - cbn; discriminate.
  - destruct sd.
    + intros _.
      destruct (0 <=? e) eqn:He.
      * apply Z.leb_le in He.
        assert (C : (100 ?= Z.neg m * 2 ^ e) = Gt).
        { apply Z.compare_gt_iff.
          assert (0 < 2 ^ e) by (apply Z.pow_pos_nonneg; lia).
          assert (Z.neg m * 2 ^ e < 0) by (apply Z.mul_neg_pos; lia).
          lia. }
        rewrite C. reflexivity.
      * apply Z.leb_gt in He.
        assert (C : (100 * 2 ^ (- e) ?= Z.neg m) = Gt).
        { apply Z.compare_gt_iff.
          assert (0 < 2 ^ (- e)) by (apply Z.pow_pos_nonneg; lia).
          lia. }
        rewrite C. reflexivity.
    + unfold SFltb, SFcompare.
      pose proof (mantissa_bound false m e d E) as Hm.
      destruct (e ?= -46) eqn:Ce.
      * apply Z.compare_eq_iff in Ce. subst e.
        destruct (Pos.compare_cont Eq m 7036874417766400) eqn:Cm;
          try (intros X; discriminate X).
        intros _. cbn [Z.leb Z.compare].
        assert (C : (100 * 2 ^ (- -46) ?= Z.pos m) = Gt).
        { apply Z.compare_gt_iff.
          change (100 * 2 ^ (- -46)) with (Z.pos 7036874417766400).
          exact Cm. }
        rewrite C. reflexivity.
      * intros _. change (e < -46) in Ce.
        assert (He : (0 <=? e) = false) by (apply Z.leb_gt; lia).
        rewrite He.
        assert (C : (100 * 2 ^ (- e) ?= Z.pos m) = Gt).
        { apply Z.compare_gt_iff.
          assert (2 ^ 47 <= 2 ^ (- e)) by (apply Z.pow_le_mono_r; lia).
          assert (2 ^ 53 < 100 * 2 ^ 47) by reflexivity. lia. }
        rewrite C. reflexivity.
      * intros X; discriminate X.
Qed.

Lemma value_ltb_100 (d : float) :
  value_ltb (Real d) (Integer 100) = (d <? 100)%float.
Proof.
  destruct (d <? 100)%float eqn:E.
  - now apply real_below_100_conv.
  - destruct (value_ltb (Real d) (Integer 100)) eqn:V; [|reflexivity].
    apply real_below_100 in V. congruence.
Qed.

(** With [max_distance] left out, a row passes the [WHERE] clause exactly
    when its distance is a number below 100 and it has not expired. *)
Lemma where_clause_default_bound (M : libm) (now : Z) (q : query)
  (o : Opportunity.row) :
  get q "max_distance" = Undefined ->
  Opportunities.where_clause now (opportunities_params q)
    (Opportunities.with_distance M (opportunities_params q) o)
  = (let c := Opportunities.with_distance M (opportunities_params q) o in
     below 100 (snd c)
     && where_true (sql_gt (Opportunity.expiry (fst c)) (datetime_now now))).
Proof.
  intros Hq. unfold Opportunities.where_clause.
  rewrite (opportunities_default_bound q Hq).
  unfold Opportunities.with_distance. cbn [fst snd].
  destruct (distance_null_or_real M (param (opportunities_params q) 0)
              (param (opportunities_params q) 1)
              (param (opportunities_params q) 2) (Opportunity.origin_lat o)
              (Opportunity.origin_lng o)) as [-> | [r ->]].
  - cbn. destruct (sql_gt _ _) as [[|]|]; reflexivity.
  - cbn [sql_lt below]. rewrite value_ltb_100.
    destruct (r <? 100)%float; destruct (sql_gt _ _) as [[|]|]; reflexivity.
Qed.

(** X7: with [max_distance] left out of the query string, the bound is
    the number 100 and it is applied: the response is the 50 best paid of
    the rows that have not expired and whose distance is a number below
    100, as doubles compare. *)
Theorem default_bound_is_100_km (M : libm) (s : store) (now : Z)
  (q : query) :
  get q "max_distance" = Undefined ->
  api_opportunities M (Available s) now q
  = Json (map Opportunities.columns
      (limit 50
        (order_by Opportunities.order_desc
          (filter
            (fun c =>
               below 100 (snd c)
               && where_true (sql_gt (Opportunity.expiry (fst c))
                                     (datetime_now now)))
            (map (Opportunities.with_distance M (opportunities_params q))
                 (opportunities s)))))).
Proof.
  intros Hq.
  unfold api_opportunities, db_all, respond, Opportunities.statement,
    Opportunities.selected, Opportunities.eligible.
  do 4 f_equal.
  apply filter_map_ext.
  - intros o. reflexivity.
  - intros o. now apply where_clause_default_bound.
Qed.

Lemma default_bound_is_100_km_witness :
  api_opportunities Sample.glibc (Available Sample.depot) Sample.clock
    [("lat", "0"); ("lng", "0")]
  = Json (map Opportunities.columns
      (limit 50
        (order_by Opportunities.order_desc
          (filter
            (fun c =>
               below 100 (snd c)
               && where_true (sql_gt (Opportunity.expiry (fst c))
                                     (datetime_now Sample.clock)))
            (map (Opportunities.with_distance Sample.glibc
                    (opportunities_params [("lat", "0"); ("lng", "0")]))
                 (opportunities Sample.depot)))))).
Proof.
  apply (default_bound_is_100_km Sample.glibc Sample.depot Sample.clock
           [("lat", "0"); ("lng", "0")]).
  reflexivity.
Defined.

(* ================================================================== *)
(** * [ORDER BY revenue DESC LIMIT 50] *)
(* ================================================================== *)

(** X8: the rows that pass the [WHERE] clause are the rows of the
    response and a rest, each exactly once; a rest is cut off only when
    the response is full, so that with at most 50 eligible rows none is
    lost. *)
Theorem opportunities_lost_only_beyond_the_limit (M : libm) (s : store)
  (now : Z) (q : query) :
  let eligible := Opportunities.eligible M now (opportunities_params q) s in
  exists selected rest,
    api_opportunities M (Available s) now q
    = Json (map Opportunities.columns selected)
    /\ Permutation.Permutation eligible (selected ++ rest)
    /\ (rest <> [] -> List.length selected = 50%nat)
    /\ ((List.length eligible <= 50)%nat -> rest = []).
Proof.
  intros eligible.
  exists (firstn 50 (order_by Opportunities.order_desc eligible)),
         (skipn 50 (order_by Opportunities.order_desc eligible)).
  split; [reflexivity|]. split; [|split].
  - rewrite firstn_skipn. apply Permutation.Permutation_sym.
    apply order_by_permutation.
  - intros Hr. rewrite length_firstn.
    assert (50 < List.length (order_by Opportunities.order_desc eligible))%nat.
    { destruct (Nat.ltb_spec 50
        (List.length (order_by Opportunities.order_desc eligible)))
        as [H | H]; [exact H|].
      exfalso. apply Hr. now apply skipn_all2. }
    lia.
  - intros H. apply skipn_all2. now rewrite order_by_length.
Qed.

(** X9: on a table whose [revenue] column holds what a column declared
    [REAL] can hold, the rows of the response are the best paid: no
    eligible row that was cut off by the limit has a greater revenue
    than a row of the response. *)
Theorem opportunities_are_the_best_paid (M : libm) (s : store) (now : Z)
  (q : query) :
  Forall (fun o => real_column_value (Opportunity.revenue o) = true)
         (opportunities s) ->
  let ranked :=
    order_by Opportunities.order_desc
      (Opportunities.eligible M now (opportunities_params q) s) in
  api_opportunities M (Available s) now q
  = Json (map Opportunities.columns (firstn 50 ranked))
  /\ forall c r,
       In c (firstn 50 ranked) -> In r (skipn 50 ranked) ->
       value_ltb (Opportunity.revenue (fst c)) (Opportunity.revenue (fst r))
       = false.
Proof.
  intros Hreal ranked. split; [reflexivity|].
  intros c r Hc Hr.
  change (Opportunities.order_desc r c = false).
  apply (sorted_split Opportunities.order_desc
           (fun c => real_column_value (Opportunity.revenue (fst c)) = true))
    with (n := 50%nat) (l := ranked); try assumption.
  - intros x y z Hx Hy Hz. unfold Opportunities.order_desc.
    intros Hxy Hyz. now apply (value_not_lt_trans _ (Opportunity.revenue (fst y))).
  - apply Forall_forall. intros x Hx. unfold ranked in Hx.
    apply order_by_In, filter_In in Hx. destruct Hx as [Hx _].
    apply in_map_iff in Hx. destruct Hx as [o [<- Ho]].
    rewrite Forall_forall in Hreal. now apply Hreal.
  - apply order_by_sorted. intros x y. apply value_ltb_asym.
Qed.

(** On the store of 52 loads at (0, 0) the two worst paid are cut off. *)
Lemma crowded_store_is_cut :
  map (fun c => Opportunity.id (fst c))
    (skipn 50
       (order_by Opportunities.order_desc
          (Opportunities.eligible Sample.glibc Sample.clock
             (opportunities_params [("lat", "0"); ("lng", "0")])
             Sample.crowded)))
  = [2; 1].
Proof. vm_compute. reflexivity. Qed.

Lemma opportunities_are_the_best_paid_witness :
  let ranked :=
    order_by Opportunities.order_desc
      (Opportunities.eligible Sample.glibc Sample.clock
         (opportunities_params [("lat", "0"); ("lng", "0")])
         Sample.crowded) in
  List.length (firstn 50 ranked) = 50%nat
  /\ List.length (skipn 50 ranked) = 2%nat
  /\ api_opportunities Sample.glibc (Available Sample.crowded) Sample.clock
       [("lat", "0"); ("lng", "0")]
     = Json (map Opportunities.columns (firstn 50 ranked))
  /\ forall c r,
       In c (firstn 50 ranked) -> In r (skipn 50 ranked) ->
       value_ltb (Opportunity.revenue (fst c)) (Opportunity.revenue (fst r))
       = false.
Proof.
  split; [vm_compute; reflexivity|].
  split; [vm_compute; reflexivity|].
  apply (opportunities_are_the_best_paid Sample.glibc Sample.crowded
           Sample.clock [("lat", "0"); ("lng", "0")]).
  apply Forall_forall. intros o Ho. unfold Sample.crowded in Ho.
  cbn [opportunities] in Ho. apply in_map_iff in Ho.
  destruct Ho as [i [<- Hi]]. apply in_seq in Hi.
  cbn [Opportunity.revenue Sample.load real_column_value].
  apply negb_true_iff.
  do 53 (destruct i as [|i]; [try lia; reflexivity|]). lia.
Defined.

(* ================================================================== *)
(** * The sign of the distance *)
(* ================================================================== *)

(** A product of doubles that are not negative is not negative, unless
    it is NaN. *)
Lemma SFmul_nonneg (x y : spec_float) :
  SFleb (S754_zero false) x = true -> SFleb (S754_zero false) y = true ->
  SFmul prec emax x y <> S754_nan ->
  SFleb (S754_zero false) (SFmul prec emax x y) = true.
Proof.
  destruct x as [sx | sx | | sx mx ex], y as [sy | sy | | sy my ey];
    try discriminate; try (intros _ _ H; now contradiction H);
    try destruct sx; try destruct sy; try discriminate;
    try (intros; reflexivity).
  intros _ _. unfold SFmul, binary_round_aux. cbn [xorb].
  destruct (shr_fexp prec emax _ _ loc_Exact) as [mrs' e'].
  destruct (shr_fexp prec emax _ e' loc_Exact) as [mrs'' e''].
  destruct (shr_m mrs''); try reflexivity.
  - destruct (e'' <=? emax - prec); reflexivity.
  - intros H. now contradiction H.
Qed.

Lemma float_mul_nonneg (x y : float) :
  (0 <=? x)%float = true -> (0 <=? y)%float = true ->
  is_nan (x * y) = false -> (0 <=? x * y)%float = true.
Proof.
  rewrite !leb_spec. change (Prim2SF 0) with (S754_zero false).
  intros Hx Hy Hn. apply Prim2SF_not_nan in Hn.
  rewrite mul_spec in Hn |- *. now apply SFmul_nonneg.
Qed.

(** X10: for a C library whose [acos] never returns a negative number (it
    returns NaN or a number from 0 on), a distance that is not NULL is
    not negative. *)
Theorem distance_is_never_negative (M : libm)
  (p1 p2 p3 origin_lat origin_lng : value) (d : float) :
  (forall x, is_nan (acos M x) = true \/ (0 <=? acos M x)%float = true) ->
  distance M p1 p2 p3 origin_lat origin_lng = Real d ->
  (0 <=? d)%float = true.
Proof.
  intros Hacos. unfold distance, sql_mul, real_arith.
  cbn [numeric_double].
  destruct (numeric_double (math1 _ _)) as [a|] eqn:Ea; [|discriminate].
  unfold real_result.
  destruct (is_nan (float_of_Z 6371 * a)) eqn:Hn; [discriminate|].
  intros [= <-].
  apply float_mul_nonneg; [reflexivity | | exact Hn].
  unfold math1 in Ea.
  destruct (numeric_double (cosine_of_angle _ _ _ _ _ _)) as [x|];
    [|discriminate].
  unfold real_result in Ea.
  destruct (Hacos x) as [H | H].
  - rewrite H in Ea. discriminate.
  - destruct (is_nan (acos M x)); [discriminate|].
    simpl in Ea. now injection Ea as <-.
Qed.

Lemma glibc_acos_range (x : float) :
  is_nan (acos Sample.glibc x) = true
  \/ (0 <=? acos Sample.glibc x)%float = true.
Proof.
  unfold Sample.glibc, acos.
  destruct ((x <? -1) || (1 <? x))%float; [now left|].
  unfold Sample.table, Sample.acos_table. cbn [find fst snd].
  repeat match goal with
         | |- context [if ?b then _ else _] => destruct b
         end;
    first [now right | now left].
Qed.

Lemma distance_is_never_negative_witness :
  (0 <=? 0x1.bcc79ad9ad783p+5)%float = true.
Proof.
  apply (distance_is_never_negative Sample.glibc (Text "0") (Text "0")
           (Text "0") (Real 0.5) (Real 0)).
  - exact glibc_acos_range.
  - vm_compute. reflexivity.
Defined.

(* ================================================================== *)
(** * The response of [/api/analytics/revenue] *)
(* ================================================================== *)

(** Two distinct labels of which the second is not less than the first:
    the first is less than the second. *)
Lemma label_lt (a b : value) :
  is_label a = true -> is_label b = true -> a <> b ->
  value_ltb b a = false -> value_ltb a b = true.
Proof.
  intros La Lb Hne Hba. unfold value_ltb in *.
  destruct (value_compare a b) eqn:C.
  - exfalso. apply Hne. apply (value_eqb_label a b La Lb).
    unfold value_eqb. now rewrite C.
  - reflexivity.
  - rewrite value_compare_antisym, C in Hba. discriminate.
Qed.

(** A sorted list without repeated keys is strictly sorted. *)
Lemma Sorted_strict {A B : Type} (f : A -> B) (R R' : A -> A -> Prop)
  (l : list A) :
  (forall a b, In a l -> In b l -> f a <> f b -> R a b -> R' a b) ->
  NoDup (map f l) -> Sorted R l -> Sorted R' l.
Proof.
  induction l as [|a l IH]; intros H Hnd Hs; [constructor|].
  inversion Hs as [|? ? Hs' Hd]; subst.
  inversion Hnd as [|? ? Hni Hnd']; subst.
  constructor.
  - apply IH; auto. intros x y Hx Hy. apply H; now right.
  - destruct l as [|b l]; constructor.
    inversion Hd as [|? ? Hab]; subst.
    apply H; [now left | right; now left | | exact Hab].
    intros E. apply Hni. rewrite E. now left.
Qed.

Lemma total_shipments_lower (rows : list Revenue.json) :
  Forall (fun b => 1 <= Revenue.shipments b) rows ->
  Z.of_nat (List.length rows) <= Revenue.total_shipments rows.
Proof.
  induction 1 as [|b rows Hb _ IH]; simpl Revenue.total_shipments;
    [simpl; lia|].
  change (List.length (b :: rows)) with (S (List.length rows)). lia.
Qed.

(** [SUM] skips NULL. *)
Lemma sql_sum_skips_null (vs : list value) :
  sql_sum vs = sql_sum (filter (fun v => negb (is_null v)) vs).
Proof.
  unfold sql_sum. generalize (@None float).
  induction vs as [|v vs IH]; intros acc; [reflexivity|].
  destruct v; cbn [filter is_null negb fold_left]; apply IH.
Qed.

(** The label of a bucket is the label of one of the rows of the
    window. *)
Lemma revenue_bucket_label (now : Z) (params : list value) (s : store)
  (b : Revenue.json) :
  In b (Revenue.statement now params s) ->
  exists r, In r (Revenue.window now params s)
            /\ Revenue.timeframe b = strftime_Ym now (Shipment.timestamp r).
Proof.
  intros Hb. unfold Revenue.statement in Hb.
  apply order_by_In, in_map_iff in Hb. destruct Hb as (g & <- & Hg).
  pose proof (group_by_spec (Revenue.timeframe_of now)
                (fun r => strftime_Ym_label now (Shipment.timestamp r))
                (Revenue.window now params s)) as (_ & _ & Hall).
  rewrite Forall_forall in Hall.
  destruct (Hall g Hg) as (Hl & Hne & Hrows).
  destruct (snd g) as [|r rs] eqn:E; [congruence|].
  assert (Hr : In r (filter
            (fun x => value_eqb (Revenue.timeframe_of now x) (fst g))
            (Revenue.window now params s))) by (rewrite <- Hrows; now left).
  apply filter_In in Hr. destruct Hr as [Hr Hk].
  exists r. split; [exact Hr|]. simpl. symmetry.
  apply (value_eqb_label _ _ (strftime_Ym_label now _) Hl). exact Hk.
Qed.

(** X11: whatever the period, every bucket of the response counts at
    least one shipment; the counts add up to the number of rows of the
    window; so there are at most as many buckets as rows in the window,
    and at most as many as shipments in the table. *)
Theorem revenue_buckets_are_never_empty (s : store) (now : Z) (q : query) :
  exists rows,
    api_analytics_revenue (Available s) now q = Json rows
    /\ Forall (fun b => 1 <= Revenue.shipments b) rows
    /\ Revenue.total_shipments rows
       = Z.of_nat (List.length (Revenue.window now (revenue_params q) s))
    /\ (List.length rows
        <= List.length (Revenue.window now (revenue_params q) s))%nat
    /\ (List.length (Revenue.window now (revenue_params q) s)
        <= List.length (shipments s))%nat.
Proof.
  eexists. split; [reflexivity|].
  pose proof (revenue_statement_partition now (revenue_params q) s)
    as (Htotal & _ & Hall & _).
  assert (Hpos : Forall (fun b => 1 <= Revenue.shipments b)
                   (Revenue.statement now (revenue_params q) s)).
  { eapply Forall_impl; [|exact Hall]. cbv beta zeta.
    intros b (Hne & _ & Hcount). rewrite Hcount.
    destruct (filter _ _); [congruence | simpl List.length; lia]. }
  repeat split.
  - exact Hpos.
  - exact Htotal.
  - apply total_shipments_lower in Hpos. rewrite Htotal in Hpos. lia.
  - apply filter_length_le.
Qed.

(** X12: whatever the period, the [timeframe] of every bucket is NULL or
    a text, and the buckets come in strictly ascending order of it: no
    two buckets have the same label, and only the first one can have the
    label NULL. *)
Theorem revenue_labels_are_strictly_ascending (s : store) (now : Z)
  (q : query) :
  exists rows,
    api_analytics_revenue (Available s) now q = Json rows
    /\ Forall (fun b => is_label (Revenue.timeframe b) = true) rows
    /\ Sorted (fun a b => value_ltb (Revenue.timeframe a)
                                    (Revenue.timeframe b) = true) rows
    /\ Forall (fun b => Revenue.timeframe b <> Null) (tl rows).
Proof.
  eexists. split; [reflexivity|].
  pose proof (revenue_statement_partition now (revenue_params q) s)
    as (_ & Hnd & _ & Hsorted). cbv zeta in Hnd, Hsorted.
  assert (Hlabel : forall b,
            In b (Revenue.statement now (revenue_params q) s) ->
            is_label (Revenue.timeframe b) = true).
  { intros b Hb. apply revenue_bucket_label in Hb.
    destruct Hb as (r & _ & ->). apply strftime_Ym_label. }
  assert (Hstrict : Sorted (fun a b => value_ltb (Revenue.timeframe a)
                                         (Revenue.timeframe b) = true)
                      (Revenue.statement now (revenue_params q) s)).
  { apply (Sorted_strict Revenue.timeframe
             (fun a b => value_ltb (Revenue.timeframe b)
                                   (Revenue.timeframe a) = false));
      [|exact Hnd | exact Hsorted].
    intros a b Ha Hb Hne Hba. apply label_lt; auto. }
  split; [|split].
  - apply Forall_forall. exact Hlabel.
  - exact Hstrict.
  - clear Hnd Hsorted Hlabel.
    induction Hstrict as [|a l Hs IH Hd]; [constructor|]. simpl.
    destruct l as [|b l]; constructor.
    + inversion Hd as [|? ? Hab]; subst. intros E. rewrite E in Hab.
      unfold value_ltb in Hab. destruct (Revenue.timeframe a); discriminate.
    + exact IH.
Qed.

(** X13: [SUM(revenue)] skips NULL: the [total] of a bucket is the sum of
    the revenues of its rows that are not NULL, and it is NULL when all
    of them are. *)
Theorem revenue_total_skips_null (s : store) (now : Z) (q : query) :
  Forall (fun b =>
      let known :=
        filter (fun v => negb (is_null v))
          (map Shipment.revenue
             (filter (fun r => value_eqb
                                 (strftime_Ym now (Shipment.timestamp r))
                                 (Revenue.timeframe b))
                     (Revenue.window now (revenue_params q) s))) in
      Revenue.total b = sql_sum known
      /\ (known = [] -> Revenue.total b = Null))
    (Revenue.statement now (revenue_params q) s).
Proof.
  pose proof (revenue_statement_partition now (revenue_params q) s)
    as (_ & _ & Hall & _).
  eapply Forall_impl; [|exact Hall]. cbv beta zeta.
  intros b (_ & Htotal & _).
  rewrite Htotal, sql_sum_skips_null. split; [reflexivity|].
  intros ->. reflexivity.
Qed.

(* ================================================================== *)
(** * How the period is read *)
(* ================================================================== *)

Lemma is_space_to_lower (c : ascii) : is_space (to_lower c) = is_space c.
Proof. destruct c as [[] [] [] [] [] [] [] []]; reflexivity. Qed.

Lemma to_lower_idempotent (c : ascii) : to_lower (to_lower c) = to_lower c.
Proof. destruct c as [[] [] [] [] [] [] [] []]; reflexivity. Qed.

Lemma lower_case_idempotent (s : string) :
  lower_case (lower_case s) = lower_case s.
Proof.
  induction s as [|c s IH]; simpl; [reflexivity|].
  now rewrite to_lower_idempotent, IH.
Qed.

Lemma lower_case_length (s : string) :
  String.length (lower_case s) = String.length s.
Proof. induction s as [|c s IH]; simpl; [reflexivity | now rewrite IH]. Qed.

Lemma skip_spaces_lower_case (s : string) :
  skip_spaces (lower_case s) = lower_case (skip_spaces s).
Proof.
  induction s as [|c s IH]; simpl; [reflexivity|].
  rewrite is_space_to_lower. destruct (is_space c); [exact IH | reflexivity].
Qed.

Lemma skip_spaces_idempotent (s : string) :
  skip_spaces (skip_spaces s) = skip_spaces s.
Proof.
  induction s as [|c s IH]; simpl; [reflexivity|].
  destruct (is_space c) eqn:E; [exact IH|]. simpl. now rewrite E.
Qed.

Lemma to_lower_nul (c : ascii) :
  Ascii.eqb (to_lower c) Ascii.zero = Ascii.eqb c Ascii.zero.
Proof. destruct c as [[] [] [] [] [] [] [] []]; reflexivity. Qed.

Lemma c_string_lower_case (s : string) :
  c_string (lower_case s) = lower_case (c_string s).
Proof.
  induction s as [|c s IH]; simpl; [reflexivity|].
  rewrite to_lower_nul. destruct (Ascii.eqb c Ascii.zero); [reflexivity|].
  simpl. now rewrite IH.
Qed.

Lemma unit_of_name_lower_case (name : string) :
  unit_of_name (lower_case name) = unit_of_name name.
Proof.
  unfold unit_of_name.
  now rewrite c_string_lower_case, lower_case_length, lower_case_idempotent.
Qed.

(** The response depends on the period only through the unit it names. *)
Lemma revenue_by_unit (d : db) (now : Z) (q1 q2 : query) :
  unit_of_name (skip_spaces (period_of q1))
  = unit_of_name (skip_spaces (period_of q2)) ->
  api_analytics_revenue d now q1 = api_analytics_revenue d now q2.
Proof.
  intros H. destruct d as [message | s]; [reflexivity|].
  unfold api_analytics_revenue, db_all, respond. f_equal.
  unfold Revenue.statement, Revenue.window. do 3 f_equal.
  apply filter_ext. intros r. unfold Revenue.where_clause.
  unfold revenue_params, param, bind, nth.
  now rewrite !window_start_of_period, H.
Qed.

(** X14: the period is read without regard to letter case and to blanks
    in front of it, and a unit may be written in the plural: [MONTH],
    [ month] and [months] are answered as [month] is. *)
Theorem period_is_read_leniently (d : db) (now : Z) (q : query)
  (p : string) :
  api_analytics_revenue d now (("period", lower_case p) :: q)
  = api_analytics_revenue d now (("period", p) :: q)
  /\ api_analytics_revenue d now (("period", String " " p) :: q)
     = api_analytics_revenue d now (("period", p) :: q)
  /\ Forall (fun unit =>
       api_analytics_revenue d now (("period", unit ++ "s") :: q)
       = api_analytics_revenue d now (("period", unit) :: q))
       ["second"; "minute"; "hour"; "day"; "month"; "year"].
Proof.
  split; [|split].
  - apply revenue_by_unit. unfold period_of. simpl.
    now rewrite skip_spaces_lower_case, unit_of_name_lower_case.
  - apply revenue_by_unit. reflexivity.
  - repeat (apply Forall_cons; [apply revenue_by_unit; reflexivity|]).
    apply Forall_nil.
Qed.
